(** * Memex annotation search: listing, filtering, clustering, pagination

    A shallow embedding of [src/search/background/annots-list.ts]
    (class [AnnotationsListPlugin]) together with the properties of its
    query pipeline.

    Conventions of the embedding.
    - A Dexie table is the list of its records in primary-key order; an
      index lookup ([where(..).equals], [where(..).anyOf]) keeps the
      records that match, in that order.
    - A JavaScript [Map] is an association list in insertion order;
      [Map.set] on a key already present overwrites the value in place.
    - A JavaScript [Set] built from an array and used only through [has]
      is the array itself with a membership test.
    - Times are epoch milliseconds in [Z].  Calendar arithmetic of
      [moment] is taken at a fixed offset from UTC (a day is 86400000 ms).
    - One call reads the clock once: every [Date.now()] and [moment()]
      of that call yields the same [now].
    - A thrown exception is the [Err] branch of [result]; a loop that may
      run forever takes fuel and yields [None] when the fuel runs out. *)

From Stdlib Require Import String List ZArith Lia Bool Permutation Sorted.
Import ListNotations.

Set Implicit Arguments.

(** ** Keys with a decidable equality *)

Class Key (K : Type) := {
  keqb : K -> K -> bool;
  keqb_eq : forall a b, keqb a b = true <-> a = b
}.

#[global] Instance Key_string : Key string :=
  {| keqb := String.eqb; keqb_eq := String.eqb_eq |}.

#[global] Instance Key_Z : Key Z :=
  {| keqb := Z.eqb; keqb_eq := Z.eqb_eq |}.

(** ** JavaScript containers *)

Module Js.

Section Sets.
Context {K : Type} `{Key K}.

(** [new Set(xs).has(x)] *)
Definition has (xs : list K) (x : K) : bool := existsb (keqb x) xs.

(** [[...new Set(xs)]]: first occurrences, in order. *)
Fixpoint uniqAcc (seen xs : list K) : list K :=
  match xs with
  | [] => []
  | x :: r =>
      if has seen x then uniqAcc seen r else x :: uniqAcc (seen ++ [x]) r
  end.

Definition uniq (xs : list K) : list K := uniqAcc [] xs.
End Sets.

Section Maps.
Context {K V : Type} `{Key K}.

(** [m.get(k)] *)
Fixpoint get (m : list (K * V)) (k : K) : option V :=
  match m with
  | [] => None
  | (k', v) :: r => if keqb k k' then Some v else get r k
  end.

(** [m.set(k, v)] *)
Fixpoint set (k : K) (v : V) (m : list (K * V)) : list (K * V) :=
  match m with
  | [] => [(k, v)]
  | (k', v') :: r => if keqb k k' then (k, v) :: r else (k', v') :: set k v r
  end.
End Maps.

(** [xs.slice(s, e)] for non-negative [s] and [e]. *)
Definition slice {A : Type} (s e : nat) (xs : list A) : list A :=
  firstn (e - s) (skipn s xs).

(** [m.get(k) || []] *)
Definition getOrEmpty {K A : Type} `{Key K} (m : list (K * list A)) (k : K)
  : list A :=
  match get m k with Some l => l | None => [] end.

End Js.

(** ** Data model *)

(** Modelled from the spec: the declaration of [Annotation]
    ([src/direct-linking/types]) is given by the fields this file reads:
    the key [url], the owning page, the time of the last edit and the
    two indexed term lists. *)
Record Annotation := {
  url : string;
  pageUrl : string;
  lastEdited : Z;
  _body_terms : list string;
  _comment_terms : list string
}.

(** A date argument is a number of milliseconds or a [Date] instance;
    the two differ in truthiness ([0] is falsy, every [Date] is truthy). *)
Inductive DateArg :=
| DNum (ms : Z)
| DDate (ms : Z).

Definition msOf (d : DateArg) : Z :=
  match d with DNum ms => ms | DDate ms => ms end.

Definition truthy (d : option DateArg) : bool :=
  match d with
  | None => false
  | Some (DNum ms) => negb (ms =? 0)%Z
  | Some (DDate _) => true
  end.

(** [d || dflt], as milliseconds. *)
Definition dateOr (d : option DateArg) (dflt : Z) : Z :=
  match d with
  | Some x => if truthy d then msOf x else dflt
  | None => dflt
  end.

(** Modelled from the spec: the declaration of [AnnotSearchParams]
    ([src/search/background/types]) is given by the fields this file
    destructures, with [limit] and [skip] unsigned as the data model of
    the specification has them.  An optional array is [None] when the
    property is absent; [pUrl] is the property [url] of the parameters
    (the page), named apart from the key [url] of an annotation. *)
Record AnnotSearchParams := {
  termsInc : list string;
  includeHighlights : bool;
  includeNotes : bool;
  pUrl : option string;
  startDate : option DateArg;
  endDate : option DateArg;
  bookmarksOnly : bool;
  tagsInc : option (list string);
  tagsExc : option (list string);
  collections : option (list string);
  limit : nat;
  skip : nat
}.

(** [arr && arr.length] *)
Definition nonEmpty (arr : option (list string)) : bool :=
  match arr with Some (_ :: _) => true | _ => false end.

Definition elems (arr : option (list string)) : list string :=
  match arr with Some l => l | None => [] end.

(** The Dexie tables the plugin reads.  Bookmarks are keyed by [url];
    tags by [[name, url]]; custom lists by [id]; list entries by
    [[listId, url]]. *)
Record Store := {
  annotations : list Annotation;
  bookmarks : list string;
  tags : list (string * string);
  customLists : list (Z * string);
  pageListEntries : list (Z * string)
}.

(** What the plugin reads from its host: the stored installation time
    ([browser.storage.local], possibly absent), the clock and the offset
    of local time from UTC. *)
Record Host := {
  installTime : option Z;
  now : Z;
  utcOffset : Z
}.

Inductive Error :=
| UrlMissing          (* Error('URL must be supplied to list annotations.') *)
| ReduceOfEmptyArray  (* TypeError: reduce of empty array with no initial value *)
| PropertyOfUndefined (* TypeError: cannot read property of undefined *).

Inductive result (A : Type) :=
| Ok (a : A)
| Err (e : Error).
Arguments Ok {A} a.
Arguments Err {A} e.

Definition bind {A B : Type} (r : result A) (k : A -> result B) : result B :=
  match r with Ok a => k a | Err e => Err e end.

(** ** Facet filters *)

Definition filterByBookmarks (db : Store) (urls : list string) : list string :=
  filter (fun b => Js.has urls b) (bookmarks db).

Definition filterByTags (db : Store) (urls : list string)
  (params : AnnotSearchParams) : list string :=
  let tags0 := filter (fun t => Js.has urls (snd t)) (tags db) in
  let tags1 :=
    if nonEmpty (tagsExc params)
    then filter (fun t => negb (Js.has (elems (tagsExc params)) (fst t))) tags0
    else tags0 in
  let tags2 :=
    if nonEmpty (tagsInc params)
    then filter (fun t => Js.has (elems (tagsInc params)) (fst t)) tags1
    else tags1 in
  let tagUrls := map snd tags2 in
  filter (fun u => Js.has tagUrls u) urls.

Definition filterByCollections (db : Store) (urls : list string)
  (params : AnnotSearchParams) : list string :=
  let listIds :=
    map fst (filter (fun l => Js.has (elems (collections params)) (snd l))
                    (customLists db)) in
  let entries := filter (fun e => Js.has urls (snd e)) (pageListEntries db) in
  let entryUrls :=
    map snd (filter (fun e => Js.has listIds (fst e)) entries) in
  filter (fun u => Js.has entryUrls u) urls.

Definition filterResults (db : Store) (results : list string)
  (params : AnnotSearchParams) : list string :=
  let results1 :=
    if bookmarksOnly params then filterByBookmarks db results else results in
  let results2 :=
    if nonEmpty (tagsInc params) || nonEmpty (tagsExc params)
    then filterByTags db results1 params else results1 in
  let results3 :=
    if nonEmpty (collections params)
    then filterByCollections db results2 params else results2 in
  results3.

(** ** Result assembly *)

Definition mapUrlsToAnnots (db : Store) (urls : list string)
  : list (option Annotation) :=
  let annotUrlMap :=
    fold_left (fun m annot => Js.set (url annot) annot m)
              (filter (fun a => Js.has urls (url a)) (annotations db))
              [] in
  map (fun u => Js.get annotUrlMap u) urls.

(** ** Listing the annotations of one page *)

Definition DEF_INNER_LIMIT_MULTI : nat := 2.

(** The collection [listWithUrl] returns, as the list of its records;
    [!url] holds of an absent and of an empty url. *)
Definition listWithUrl (db : Store) (h : Host) (params : AnnotSearchParams)
  : result (list Annotation) :=
  match pUrl params with
  | None => Err UrlMissing
  | Some EmptyString => Err UrlMissing
  | Some u =>
      let coll := filter (fun a => keqb (pageUrl a) u) (annotations db) in
      if negb (truthy (startDate params)) && negb (truthy (endDate params))
      then Ok coll
      else
        let startDate' := dateOr (startDate params) 0 in
        let endDate' := dateOr (endDate params) (now h) in
        Ok (filter (fun a => let time := lastEdited a in
                             (startDate' <=? time)%Z && (time <=? endDate')%Z)
                   coll)
  end.

(** The [do ... while (continueLookup)] loop; one unit of fuel per
    execution of its body. *)
Fixpoint listAnnotsByPage_loop (fuel : nat) (db : Store) (h : Host)
  (params : AnnotSearchParams) (innerLimit : nat) (results : list string)
  : option (result (list string)) :=
  match fuel with
  | O => None
  | S fuel' =>
      match listWithUrl db h params with
      | Err e => Some (Err e)
      | Ok coll =>
          let innerResults := map url (firstn innerLimit coll) in
          let continueLookup := innerLimit <=? length innerResults in
          let innerResults' := filterResults db innerResults params in
          let results' := results ++ innerResults' in
          if continueLookup
          then listAnnotsByPage_loop fuel' db h params innerLimit results'
          else Some (Ok results')
      end
  end.

Definition listAnnotsByPage (fuel : nat) (db : Store) (h : Host)
  (params : AnnotSearchParams) (innerLimitMultiplier : nat)
  : option (result (list (option Annotation))) :=
  let innerLimit := limit params * innerLimitMultiplier in
  match listAnnotsByPage_loop fuel db h params innerLimit [] with
  | None => None
  | Some (Err e) => Some (Err e)
  | Some (Ok results) =>
      let results' :=
        if limit params <? length results
        then Js.slice (skip params) (skip params + limit params) results
        else results in
      Some (Ok (mapUrlsToAnnots db results'))
  end.

(** ** Term search *)

Inductive TermsField := BodyTerms | CommentTerms.

Definition fieldTerms (f : TermsField) (a : Annotation) : list string :=
  match f with
  | BodyTerms => _body_terms a
  | CommentTerms => _comment_terms a
  end.

Definition queryTermsField (db : Store) (h : Host) (field : TermsField)
  (term : string) (params : AnnotSearchParams) : list string :=
  let coll := filter (fun a => Js.has (fieldTerms field a) term)
                     (annotations db) in
  let coll' :=
    if truthy (startDate params) || truthy (endDate params)
    then filter (fun annot =>
                   (dateOr (startDate params) 0 <=? lastEdited annot)%Z &&
                   (lastEdited annot <=? dateOr (endDate params) (now h))%Z)
                coll
    else coll in
  map url coll'.

(** [xs.reduce(f)] without an initial value. *)
Definition reduce1 {A : Type} (f : A -> A -> A) (xs : list A) : result A :=
  match xs with
  | [] => Err ReduceOfEmptyArray
  | x :: r => Ok (fold_left f r x)
  end.

Definition enabledFields (params : AnnotSearchParams) : list TermsField :=
  (if includeHighlights params then [BodyTerms] else []) ++
  (if includeNotes params then [CommentTerms] else []).

Definition lookupTerms (db : Store) (h : Host) (params : AnnotSearchParams)
  : result (list string) :=
  let fields := enabledFields params in
  let results :=
    fold_left
      (fun results term =>
         let termRes :=
           map (fun field => queryTermsField db h field term params) fields in
         Js.set term (Js.uniq (concat termRes)) results)
      (termsInc params) [] in
  reduce1 (fun a b => filter (fun res => Js.has b res) a) (map snd results).

(** State of [paginateAnnotsResults]: [annotsByPage] and [seenPages]. *)
Definition PageMap := list (string * list Annotation).

Definition setAdd (x : string) (s : list string) : list string :=
  if Js.has s x then s else s ++ [x].

(** Body of [annots.forEach]; reading [pageUrl] of a hole throws. *)
Definition paginateVisit (limit skip : nat)
  (st : result (PageMap * list string)) (annot : option Annotation)
  : result (PageMap * list string) :=
  bind st (fun '(annotsByPage, seenPages) =>
    match annot with
    | None => Err PropertyOfUndefined
    | Some a =>
        let seenPages' := setAdd (pageUrl a) seenPages in
        let prev := Js.getOrEmpty annotsByPage (pageUrl a) in
        if negb (length annotsByPage =? limit) && (skip <? length seenPages')
        then Ok (Js.set (pageUrl a) (prev ++ [a]) annotsByPage, seenPages')
        else Ok (annotsByPage, seenPages')
    end).

Fixpoint paginate_loop (fuel : nat) (db : Store) (results : list string)
  (limit skip internalSkip : nat) (annotsByPage : PageMap)
  (seenPages : list string) : option (result PageMap) :=
  match fuel with
  | O => None
  | S fuel' =>
      if length annotsByPage <? limit then
        let internalPageSize := limit * 2 in
        let resSlice :=
          Js.slice internalSkip (internalSkip + internalPageSize) results in
        match resSlice with
        | [] => Some (Ok annotsByPage)
        | _ :: _ =>
            let annots := mapUrlsToAnnots db resSlice in
            match fold_left (paginateVisit limit skip) annots
                            (Ok (annotsByPage, seenPages)) with
            | Err e => Some (Err e)
            | Ok (annotsByPage', seenPages') =>
                paginate_loop fuel' db results limit skip
                              (internalSkip + internalPageSize)
                              annotsByPage' seenPages'
            end
        end
      else Some (Ok annotsByPage)
  end.

(** The loop reads a fresh slice of [results] every round, so
    [length results] rounds and a last test are enough fuel
    (see [paginateAnnotsResults_returns]). *)
Definition paginateAnnotsResults (db : Store) (results : list string)
  (params : AnnotSearchParams) : option (result PageMap) :=
  paginate_loop (S (length results)) db results
                (limit params) (skip params) 0 [] [].

Definition searchAnnots (db : Store) (h : Host) (params : AnnotSearchParams)
  : option (result PageMap) :=
  match lookupTerms db h params with
  | Err e => Some (Err e)
  | Ok termsSearchResults =>
      let filteredResults := filterResults db termsSearchResults params in
      paginateAnnotsResults db filteredResults params
  end.

(** ** Clustering by day and page *)

Definition msPerDay : Z := 86400000.

(** [moment(t).startOf('day')] and [.endOf('day')] in local time. *)
Definition startOfDay (h : Host) (t : Z) : Z :=
  (t - (t + utcOffset h) mod msPerDay)%Z.

Definition endOfDay (h : Host) (t : Z) : Z :=
  (startOfDay h t + msPerDay - 1)%Z.

(** A stable sort: [insertBy leb x l] puts [x] in front of the first
    element it does not have to follow. *)
Fixpoint insertBy {A : Type} (leb : A -> A -> bool) (x : A) (l : list A)
  : list A :=
  match l with
  | [] => [x]
  | y :: r => if leb x y then x :: y :: r else y :: insertBy leb x r
  end.

Definition sortBy {A : Type} (leb : A -> A -> bool) (l : list A) : list A :=
  fold_right (insertBy leb) [] l.

(** Comparator [(a, b) => b.lastEdited.getTime() - a.lastEdited.getTime()]:
    [a] may stay in front of [b] when the difference is not positive. *)
Definition editedDesc (a b : Annotation) : bool :=
  (lastEdited b - lastEdited a <=? 0)%Z.

Definition editedAsc (a b : Annotation) : bool :=
  (lastEdited a <=? lastEdited b)%Z.

Definition DayMap := list (Z * PageMap).

Definition clusterAnnotsByDays (h : Host) (annots : list Annotation)
  : list (Z * list Annotation) :=
  fold_left
    (fun annotsByDays annot =>
       let date := startOfDay h (lastEdited annot) in
       let existing := Js.getOrEmpty annotsByDays date in
       Js.set date (existing ++ [annot]) annotsByDays)
    (sortBy editedDesc annots) [].

Definition clusterAnnotsByPage (h : Host) (annots : list Annotation)
  : DayMap :=
  fold_left
    (fun annotsByPage '(date, matching) =>
       let pageMap :=
         fold_left
           (fun pageMap annot =>
              let existing := Js.getOrEmpty pageMap (pageUrl annot) in
              Js.set (pageUrl annot) (existing ++ [annot]) pageMap)
           matching ([] : PageMap) in
       Js.set date pageMap annotsByPage)
    (clusterAnnotsByDays h annots) [].

Definition mergeResults (a b : DayMap) : DayMap :=
  fold_left
    (fun a '(date, pagesB) =>
       let pagesA := match Js.get a date with Some m => m | None => [] end in
       let pagesA' :=
         fold_left
           (fun pagesA '(page, annotsB) =>
              let existing := Js.getOrEmpty pagesA page in
              Js.set page (existing ++ annotsB) pagesA)
           pagesB pagesA in
       Js.set date pagesA' a)
    b a.

(** ** Listing by day *)

(** [moment('2018-06-01')]: local midnight of that day. *)
Definition annotsReleaseFloor (h : Host) : Z :=
  (1527811200000 - utcOffset h)%Z.

(** [moment(installTime)] is the current time when the value is absent. *)
Definition installMoment (h : Host) : Z :=
  match installTime h with Some t => t | None => now h end.

(** [startDate ? moment(startDate) : moment('2018-06-01')] *)
Definition annotsRelease (h : Host) (params : AnnotSearchParams) : Z :=
  match startDate params with
  | Some d => if truthy (startDate params) then msOf d
              else annotsReleaseFloor h
  | None => annotsReleaseFloor h
  end.

Definition calcHardLowerTimeBound (h : Host) (params : AnnotSearchParams) : Z :=
  if (installMoment h <? annotsRelease h params)%Z
  then annotsRelease h params
  else installMoment h.

(** Keys of an IndexedDB index are ordered by type before value: every
    number comes before every [Date]. *)
Inductive IdbKey :=
| KNumber (n : Z)
| KDate (ms : Z).

Definition idbLeb (a b : IdbKey) : bool :=
  match a, b with
  | KNumber x, KNumber y => (x <=? y)%Z
  | KNumber _, KDate _ => true
  | KDate _, KNumber _ => false
  | KDate x, KDate y => (x <=? y)%Z
  end.

(** The lookup on the [lastEdited] index, whose keys are [Date]s:
    ascending (then by primary key), both ends inclusive, reversed.  The
    caller passes the lower end as a number ([dateCursor.valueOf()]) and
    the upper end as a [Date] ([upperBound.toDate()]). *)
Definition queryAnnotsByDay (db : Store) (startDate endDate : Z)
  : list Annotation :=
  rev (sortBy editedAsc
         (filter (fun a =>
                    idbLeb (KNumber startDate) (KDate (lastEdited a)) &&
                    idbLeb (KDate (lastEdited a)) (KDate endDate))
                 (annotations db))).

(** A range query as issued to the store. *)
Record RangeQuery := { lower : Z; upper : Z }.

(** [a.diff(b, 'days')] truncates towards zero. *)
Definition diffDays (a b : Z) : Z := Z.quot (a - b) msPerDay.

(** The [while] loop of [listAnnotsByDay], with the range queries issued
    so far; one unit of fuel per evaluation of its condition. *)
Fixpoint listAnnotsByDay_loop (fuel : nat) (db : Store) (h : Host)
  (params : AnnotSearchParams) (hardLowerLimit dateCursor : Z)
  (results : DayMap) (issued : list RangeQuery)
  : option (DayMap * list RangeQuery) :=
  match fuel with
  | O => None
  | S fuel' =>
      if (length results <? limit params) &&
         (hardLowerLimit <? dateCursor)%Z
      then
        let upperBound := dateCursor in
        let dateCursor' :=
          if (diffDays dateCursor hardLowerLimit <? Z.of_nat (limit params))%Z
          then hardLowerLimit
          else (dateCursor - Z.of_nat (limit params) * msPerDay)%Z in
        let annots := queryAnnotsByDay db dateCursor' upperBound in
        let filteredPks := filterResults db (map url annots) params in
        let annots' :=
          filter (fun annot => Js.has filteredPks (url annot)) annots in
        listAnnotsByDay_loop fuel' db h params hardLowerLimit dateCursor'
          (mergeResults results (clusterAnnotsByPage h annots'))
          (issued ++ [{| lower := dateCursor'; upper := upperBound |}])
      else Some (results, issued)
  end.

Definition startCursor (h : Host) (params : AnnotSearchParams) : Z :=
  match endDate params with
  | Some d => if truthy (endDate params) then msOf d else endOfDay h (now h)
  | None => endOfDay h (now h)
  end.

Definition listAnnotsByDay_run (fuel : nat) (db : Store) (h : Host)
  (params : AnnotSearchParams) : option (DayMap * list RangeQuery) :=
  let hardLowerLimit := calcHardLowerTimeBound h params in
  let dateCursor := startCursor h params in
  match listAnnotsByDay_loop fuel db h params hardLowerLimit dateCursor [] []
  with
  | None => None
  | Some (results, issued) =>
      let results' :=
        if limit params <? length results
        then Js.slice (skip params) (skip params + limit params) results
        else results in
      Some (results', issued)
  end.

Definition listAnnotsByDay (fuel : nat) (db : Store) (h : Host)
  (params : AnnotSearchParams) : option DayMap :=
  option_map fst (listAnnotsByDay_run fuel db h params).

(** ** Notions used to state the properties *)

(** The record the annotations table holds under primary key [k]. *)
Definition lookupAnnot (db : Store) (k : string) : option Annotation :=
  find (fun a => keqb (url a) k) (rev (annotations db)).

(** A tag name passes the tag filter: not excluded, and included when
    an inclusion list is given. *)
Definition tagPasses (params : AnnotSearchParams) (name : string) : bool :=
  negb (Js.has (elems (tagsExc params)) name) &&
  (if nonEmpty (tagsInc params)
   then Js.has (elems (tagsInc params)) name else true).

(** Key [k] has a tag record that passes. *)
Definition hasPassingTag (db : Store) (params : AnnotSearchParams)
  (k : string) : bool :=
  existsb (fun t => keqb (snd t) k && tagPasses params (fst t)) (tags db).

(** Key [k] has a list entry in one of the named collections. *)
Definition inCollections (db : Store) (params : AnnotSearchParams)
  (k : string) : bool :=
  existsb
    (fun e => keqb (snd e) k &&
              existsb (fun l => keqb (fst l) (fst e) &&
                                Js.has (elems (collections params)) (snd l))
                      (customLists db))
    (pageListEntries db).

Definition tagsTriggered (params : AnnotSearchParams) : bool :=
  nonEmpty (tagsInc params) || nonEmpty (tagsExc params).

Definition collectionsTriggered (params : AnnotSearchParams) : bool :=
  nonEmpty (collections params).

(** What the tag and collection stages of [filterResults] ask of a key. *)
Definition facetOk (db : Store) (params : AnnotSearchParams) (k : string)
  : bool :=
  (if tagsTriggered params then hasPassingTag db params k else true) &&
  (if collectionsTriggered params then inCollections db params k else true).

(** The date filter of [queryTermsField]: applied only when one end of
    the window is given (truthy), with the other end defaulting to [0]
    or to the current time. *)
Definition inWindow (h : Host) (params : AnnotSearchParams) (a : Annotation)
  : bool :=
  if truthy (startDate params) || truthy (endDate params)
  then (dateOr (startDate params) 0 <=? lastEdited a)%Z &&
       (lastEdited a <=? dateOr (endDate params) (now h))%Z
  else true.

(** Some enabled field of [a] holds the term [t]. *)
Definition fieldsHold (params : AnnotSearchParams) (a : Annotation)
  (t : string) : Prop :=
  exists f, In f (enabledFields params) /\ In t (fieldTerms f a).

(** The keys [lookupTerms] stores for one term. *)
Definition termKeys (db : Store) (h : Host) (params : AnnotSearchParams)
  (term : string) : list string :=
  Js.uniq (concat (map (fun field => queryTermsField db h field term params)
                       (enabledFields params))).

(** ** A small store and some queries *)

Module Sample.

Local Open Scope string_scope.

Definition annot (u p : string) (t : Z) (body comment : list string)
  : Annotation :=
  {| url := u; pageUrl := p; lastEdited := t;
     _body_terms := body; _comment_terms := comment |}.

(** Two annotations on page [P] edited on 2019-01-01 and 2019-01-02
    (UTC), one on page [Q] edited on 2019-01-02. *)
Definition a1 : Annotation :=
  annot "P#1" "P" 1546340400000 ["alpha"] ["beta"].
Definition a2 : Annotation :=
  annot "P#2" "P" 1546426800000 ["alpha"; "beta"] [].
Definition a3 : Annotation :=
  annot "Q#1" "Q" 1546430400000 ["beta"] ["gamma"].

Definition db : Store :=
  {| annotations := [a1; a2; a3];
     bookmarks := ["P#2"];
     tags := [("work", "P#1"); ("home", "P#2")];
     customLists := [(1%Z, "reading")];
     pageListEntries := [(1%Z, "Q#1")] |}.

(** Installed on 2018-12-01, read at 2019-01-03 10:00, in UTC. *)
Definition host : Host :=
  {| installTime := Some 1543622400000%Z;
     now := 1546509600000%Z;
     utcOffset := 0%Z |}.

Definition query (terms : list string) (highlights notes : bool)
  (page : option string) (lim sk : nat) : AnnotSearchParams :=
  {| termsInc := terms;
     includeHighlights := highlights; includeNotes := notes;
     pUrl := page; startDate := None; endDate := None;
     bookmarksOnly := false;
     tagsInc := None; tagsExc := None; collections := None;
     limit := lim; skip := sk |}.

(** An annotation edited on 2018-11-01, a month before the installation
    time of [host], alone in its store. *)
Definition old : Annotation := annot "P#0" "P" 1541030400000 [] [].

Definition dbOld : Store :=
  {| annotations := [old]; bookmarks := []; tags := [];
     customLists := []; pageListEntries := [] |}.

End Sample.

(** The loop shared by [clusterAnnotsByDays] and [clusterAnnotsByPage]:
    append each element to the bucket of its key. *)
Definition groupInto {K A : Type} `{Key K} (key : A -> K) (xs : list A)
  (m : list (K * list A)) : list (K * list A) :=
  fold_left (fun m a => Js.set (key a) (Js.getOrEmpty m (key a) ++ [a]) m)
            xs m.

(** All annotations of a clustered result, bucket after bucket. *)
Definition flatten (r : DayMap) : list Annotation :=
  concat (map (fun d => concat (map snd (snd d))) r).

(** Most recent edit first. *)
Definition recentFirst (l : list Annotation) : Prop :=
  StronglySorted (fun a b => (lastEdited b <= lastEdited a)%Z) l.

(** [a / b] rounded up, for positive [b]. *)
Definition ceilDiv (a b : Z) : Z := ((a + b - 1) / b)%Z.

(** Rounds the scan of [listAnnotsByDay] needs at most from [cursor]
    down to [hard], [lim] days a round: the span between the two, in
    days, over [lim], rounded up. *)
Definition scanRounds (lim : nat) (hard cursor : Z) : nat :=
  Z.to_nat (ceilDiv (Z.max 0 (cursor - hard)) (Z.of_nat lim * msPerDay)).

Definition scanBound (h : Host) (params : AnnotSearchParams) : nat :=
  scanRounds (limit params) (calcHardLowerTimeBound h params)
             (startCursor h params).

(** ** Matching an annotation against the terms *)

(** lodash [difference(xs, ys)]: the values of [xs] that are not in [ys],
    in the order of [xs]. *)
Definition diff (xs ys : list string) : list string :=
  filter (fun x => negb (Js.has ys x)) xs.

(** [termsMatch(params)(annot)].  The function falls off its end, and
    so returns [undefined], when neither field is enabled. *)
Definition termsMatch (params : AnnotSearchParams) (a : Annotation)
  : option bool :=
  let highlightsMatch :=
    if includeHighlights params
    then length (diff (termsInc params) (_body_terms a)) =? 0
    else true in
  let notesMatch :=
    if includeNotes params
    then length (diff (termsInc params) (_comment_terms a)) =? 0
    else true in
  if includeHighlights params && includeNotes params
  then Some (notesMatch || highlightsMatch)
  else if includeHighlights params && negb (includeNotes params)
  then Some highlightsMatch
  else if negb (includeHighlights params) && includeNotes params
  then Some notesMatch
  else None.

(** ** Notions used to state the further properties *)

(** The inner loop of [mergeResults]: the pages of one day of [b] merged
    into the pages [a] has for that day. *)
Definition mergePages (pagesA pagesB : PageMap) : PageMap :=
  fold_left
    (fun pagesA '(page, annotsB) =>
       let existing := Js.getOrEmpty pagesA page in
       Js.set page (existing ++ annotsB) pagesA)
    pagesB pagesA.

(** [m.get(d) || new Map()] and the bucket of page [p] in it. *)
Definition pagesAt (m : DayMap) (d : Z) : PageMap :=
  match Js.get m d with Some pm => pm | None => [] end.

Definition bucketAt (m : DayMap) (d : Z) (p : string) : list Annotation :=
  Js.getOrEmpty (pagesAt m d) p.

(** Day and page keys occur once each. *)
Definition keysOnce (m : DayMap) : Prop :=
  NoDup (map fst m) /\
  forall d pm, In (d, pm) m -> NoDup (map fst pm).

(** All annotations of a page map, bucket after bucket. *)
Definition flattenPages (pm : PageMap) : list Annotation :=
  concat (map snd pm).

(** Strictly descending. *)
Definition descending (l : list Z) : Prop :=
  StronglySorted (fun a b => (b < a)%Z) l.

(** Key [k] passes every facet filter the query triggers. *)
Definition passesFacets (db : Store) (params : AnnotSearchParams)
  (k : string) : bool :=
  (if bookmarksOnly params then Js.has (bookmarks db) k else true) &&
  facetOk db params k.

(** A page map of at most [lim] pages, each page once, whose buckets
    hold annotations of the store that are on that page and whose keys
    are among [results]. *)
Definition pagesOk (db : Store) (results : list string) (lim : nat)
  (m : PageMap) : Prop :=
  length m <= lim /\
  NoDup (map fst m) /\
  forall p bucket a,
    In (p, bucket) m -> In a bucket ->
    pageUrl a = p /\ In a (annotations db) /\ In (url a) results.

(** The annotations one round of [listAnnotsByDay] clusters: those the
    range query returns and [filterResults] keeps. *)
Definition windowAnnots (db : Store) (params : AnnotSearchParams)
  (lo hi : Z) : list Annotation :=
  let annots := queryAnnotsByDay db lo hi in
  let filteredPks := filterResults db (map url annots) params in
  filter (fun annot => Js.has filteredPks (url annot)) annots.

(** Every annotation sits in the bucket of the day of its last edit and
    of its page: the day key is a local midnight, the edit falls in the
    24 hours from it, and the page key is the page of the annotation. *)
Definition wellBucketed (h : Host) (m : DayMap) : Prop :=
  forall d pm p bucket a,
    In (d, pm) m -> In (p, bucket) pm -> In a bucket ->
    ((d + utcOffset h) mod msPerDay = 0)%Z /\
    (d <= lastEdited a < d + msPerDay)%Z /\
    pageUrl a = p.

(** Term [t] occurs in the highlight of [a] with highlights included, or
    in its note with notes included. *)
Definition termInField (params : AnnotSearchParams) (a : Annotation)
  (t : string) : Prop :=
  (includeHighlights params = true /\ In t (_body_terms a)) \/
  (includeNotes params = true /\ In t (_comment_terms a)).

(** [l1] is [l2] with some elements left out, the others in place. *)
Inductive subseq {A : Type} : list A -> list A -> Prop :=
| subseq_nil : subseq [] []
| subseq_skip : forall x l1 l2, subseq l1 l2 -> subseq l1 (x :: l2)
| subseq_keep : forall x l1 l2, subseq l1 l2 -> subseq (x :: l1) (x :: l2).

(** Local midnight of 2018-06-01 and the end of the current local day,
    written out. *)
Definition floor2018 (h : Host) : Z := (1527811200000 - utcOffset h)%Z.

Definition endOfToday (h : Host) : Z :=
  (now h - (now h + utcOffset h) mod 86400000 + 86400000 - 1)%Z.

(** What [d || dflt] is read as: a [Date] or a number other than zero
    counts, an absent value or zero gives [dflt]. *)
Definition givenOr (d : option DateArg) (dflt : Z) : Z :=
  match d with
  | Some (DDate ms) => ms
  | Some (DNum ms) => if (ms =? 0)%Z then dflt else ms
  | None => dflt
  end.

(** The pages of the records the keys [results] resolve to. *)
Definition resultPages (db : Store) (results : list string) : list string :=
  flat_map (fun k => match lookupAnnot db k with
                     | Some a => [pageUrl a]
                     | None => []
                     end) results.

(** * Properties *)

(** ** JavaScript containers *)

Section KeyFacts.
Context {K : Type} `{Key K}.

Lemma keqb_refl (k : K) : keqb k k = true.
Proof. now apply keqb_eq. Qed.

Lemma keqb_neq (a b : K) : keqb a b = false <-> a <> b.
Proof.
  split.
  - intros E ->. rewrite keqb_refl in E. discriminate.
  - intros N. destruct (keqb a b) eqn:E; trivial.
    apply keqb_eq in E. contradiction.
Qed.

Lemma keqb_sym (a b : K) : keqb a b = keqb b a.
Proof.
  destruct (keqb a b) eqn:E.
  - apply keqb_eq in E. subst. now rewrite keqb_refl.
  - symmetry. apply keqb_neq. apply keqb_neq in E. congruence.
Qed.

Lemma has_In (xs : list K) (x : K) : Js.has xs x = true <-> In x xs.
Proof.
  unfold Js.has. rewrite existsb_exists. split.
  - intros (y & Hy & E). apply keqb_eq in E. now subst.
  - intros Hx. exists x. split; [assumption | apply keqb_refl].
Qed.

Lemma has_false (xs : list K) (x : K) : Js.has xs x = false <-> ~ In x xs.
Proof.
  rewrite <- has_In. destruct (Js.has xs x); split; congruence.
Qed.

Lemma get_set {V : Type} (m : list (K * V)) (k k' : K) (v : V) :
  Js.get (Js.set k' v m) k = if keqb k k' then Some v else Js.get m k.
Proof.
  induction m as [|[k0 v0] m IH]; simpl.
  - reflexivity.
  - destruct (keqb k' k0) eqn:E0; simpl.
    + apply keqb_eq in E0. subst k0.
      destruct (keqb k k'); reflexivity.
    + destruct (keqb k k0) eqn:E1.
      * apply keqb_eq in E1. subst k0.
        rewrite keqb_sym, E0. reflexivity.
      * exact IH.
Qed.

End KeyFacts.

Lemma find_app {A : Type} (f : A -> bool) (l1 l2 : list A) :
  find f (l1 ++ l2) =
  match find f l1 with Some a => Some a | None => find f l2 end.
Proof.
  induction l1 as [|x l1 IH]; simpl; [reflexivity|].
  destruct (f x); [reflexivity | exact IH].
Qed.

Lemma find_filter {A : Type} (f P : A -> bool) (l : list A) :
  (forall a, f a = true -> P a = true) ->
  find f (filter P l) = find f l.
Proof.
  intros HfP. induction l as [|x l IH]; simpl; [reflexivity|].
  destruct (P x) eqn:EP; simpl.
  - destruct (f x); [reflexivity | exact IH].
  - destruct (f x) eqn:Ef; [|exact IH].
    apply HfP in Ef. congruence.
Qed.

(** ** Result assembly *)

Lemma get_fold_set (xs : list Annotation) (m : list (string * Annotation))
  (k : string) :
  Js.get (fold_left (fun m annot => Js.set (url annot) annot m) xs m) k =
  match find (fun a => keqb (url a) k) (rev xs) with
  | Some a => Some a
  | None => Js.get m k
  end.
Proof.
  revert m. induction xs as [|a xs IH]; intros m; [reflexivity|].
  cbn [fold_left rev]. rewrite IH, find_app.
  destruct (find _ (rev xs)); [reflexivity|].
  rewrite get_set, (keqb_sym k). cbn [find].
  destruct (keqb (url a) k); reflexivity.
Qed.

Lemma mapUrlsToAnnots_nth (db : Store) (urls : list string) (i : nat)
  (k : string) :
  nth_error urls i = Some k ->
  nth_error (mapUrlsToAnnots db urls) i = Some (lookupAnnot db k).
Proof.
  intros Hk. unfold mapUrlsToAnnots.
  rewrite nth_error_map, Hk. cbn [option_map]. f_equal.
  rewrite get_fold_set. unfold lookupAnnot.
  rewrite <- filter_rev, find_filter.
  - destruct (find _ _); reflexivity.
  - intros a Ha. apply keqb_eq in Ha. apply has_In.
    rewrite Ha. eapply nth_error_In. exact Hk.
Qed.

Lemma lookupAnnot_hole (db : Store) (k : string) :
  lookupAnnot db k = None <->
  (forall a, In a (annotations db) -> url a <> k).
Proof.
  unfold lookupAnnot. split.
  - intros Hn a Ha. apply keqb_neq.
    apply (find_none _ _ Hn). now apply in_rev in Ha.
  - intros Hall. destruct (find _ _) eqn:E; [|reflexivity].
    apply find_some in E. destruct E as [Hin Heq].
    apply in_rev in Hin. apply keqb_eq in Heq.
    now apply Hall in Hin.
Qed.

Lemma lookupAnnot_record (db : Store) (k : string) (a : Annotation) :
  lookupAnnot db k = Some a -> In a (annotations db) /\ url a = k.
Proof.
  unfold lookupAnnot. intros E. apply find_some in E.
  destruct E as [Hin Heq]. split.
  - now apply in_rev.
  - now apply keqb_eq.
Qed.

(** C7. For every key sequence [urls] (duplicates allowed) and every
    store, [mapUrlsToAnnots] returns a sequence as long as [urls] whose
    [i]-th entry is what the annotations table holds under the [i]-th
    key: the record with that [url], or a hole ([None]) exactly when the
    table has no record with that [url].  No input raises an error: the
    function is total and its result is a plain list. *)
Theorem mapUrlsToAnnots_keeps_order (db : Store) (urls : list string) :
  length (mapUrlsToAnnots db urls) = length urls /\
  (forall i k, nth_error urls i = Some k ->
     nth_error (mapUrlsToAnnots db urls) i = Some (lookupAnnot db k) /\
     (lookupAnnot db k = None <->
        forall a, In a (annotations db) -> url a <> k) /\
     (forall a, lookupAnnot db k = Some a ->
        In a (annotations db) /\ url a = k)).
Proof.
  split.
  - unfold mapUrlsToAnnots. apply length_map.
  - intros i k Hk. split; [|split].
    + now apply mapUrlsToAnnots_nth.
    + apply lookupAnnot_hole.
    + intros a. apply lookupAnnot_record.
Qed.

(** ** Facet filters *)

Lemma filter_filter' {A : Type} (f g : A -> bool) (l : list A) :
  filter f (filter g l) = filter (fun x => g x && f x) l.
Proof.
  induction l as [|x l IH]; simpl; [reflexivity|].
  destruct (g x); simpl; [destruct (f x)|]; now rewrite IH.
Qed.

Lemma filter_idem {A : Type} (f : A -> bool) (l : list A) :
  filter f (filter f l) = filter f l.
Proof.
  rewrite filter_filter'. apply filter_ext. intros x. now destruct (f x).
Qed.

Lemma nonEmpty_false (arr : option (list string)) :
  nonEmpty arr = false -> elems arr = [].
Proof. destruct arr as [[|x l]|]; simpl; congruence. Qed.

Lemma nonEmpty_true (arr : option (list string)) :
  nonEmpty arr = true <-> elems arr <> [].
Proof. destruct arr as [[|x l]|]; simpl; split; congruence. Qed.

Lemma filterByTags_filter (db : Store) (urls : list string)
  (params : AnnotSearchParams) :
  filterByTags db urls params = filter (hasPassingTag db params) urls.
Proof.
  unfold filterByTags. apply filter_ext_in. intros u Hu.
  assert (Hexc :
    (if nonEmpty (tagsExc params)
     then filter (fun t => negb (Js.has (elems (tagsExc params)) (fst t)))
                 (filter (fun t => Js.has urls (snd t)) (tags db))
     else filter (fun t => Js.has urls (snd t)) (tags db)) =
    filter (fun t => Js.has urls (snd t) &&
                     negb (Js.has (elems (tagsExc params)) (fst t)))
           (tags db)).
  { destruct (nonEmpty (tagsExc params)) eqn:E.
    - apply filter_filter'.
    - rewrite (nonEmpty_false _ E). apply filter_ext.
      intros t. cbn. now rewrite andb_true_r. }
  rewrite Hexc. clear Hexc.
  assert (Hinc :
    (if nonEmpty (tagsInc params)
     then filter (fun t => Js.has (elems (tagsInc params)) (fst t))
            (filter (fun t => Js.has urls (snd t) &&
                       negb (Js.has (elems (tagsExc params)) (fst t)))
                    (tags db))
     else filter (fun t => Js.has urls (snd t) &&
                       negb (Js.has (elems (tagsExc params)) (fst t)))
                 (tags db)) =
    filter (fun t => Js.has urls (snd t) && tagPasses params (fst t))
           (tags db)).
  { unfold tagPasses. destruct (nonEmpty (tagsInc params)).
    - rewrite filter_filter'. apply filter_ext. intros t.
      now rewrite andb_assoc.
    - apply filter_ext. intros t. now rewrite andb_true_r. }
  rewrite Hinc. clear Hinc.
  apply eq_true_iff_eq. rewrite has_In, in_map_iff.
  unfold hasPassingTag. rewrite existsb_exists. split.
  - intros (t & Ht & Hin). apply filter_In in Hin. destruct Hin as [Hin Hc].
    apply andb_true_iff in Hc. destruct Hc as [_ Hp].
    exists t. split; [assumption|].
    apply andb_true_iff. split; [now apply keqb_eq | assumption].
  - intros (t & Hin & Hc). apply andb_true_iff in Hc. destruct Hc as [Hk Hp].
    apply keqb_eq in Hk. exists t. split; [assumption|].
    apply filter_In. split; [assumption|].
    apply andb_true_iff. split; [|assumption].
    apply has_In. now rewrite Hk.
Qed.

Lemma filterByCollections_filter (db : Store) (urls : list string)
  (params : AnnotSearchParams) :
  filterByCollections db urls params = filter (inCollections db params) urls.
Proof.
  unfold filterByCollections. apply filter_ext_in. intros u Hu.
  apply eq_true_iff_eq. rewrite has_In, in_map_iff.
  unfold inCollections. rewrite existsb_exists. split.
  - intros (e & He & Hin). apply filter_In in Hin. destruct Hin as [Hin Hl].
    apply filter_In in Hin. destruct Hin as [Hin _].
    exists e. split; [assumption|]. apply andb_true_iff.
    split; [now apply keqb_eq|].
    apply has_In, in_map_iff in Hl. destruct Hl as (l & Hl & Hlin).
    apply filter_In in Hlin. destruct Hlin as [Hlin Hname].
    apply existsb_exists. exists l. split; [assumption|].
    apply andb_true_iff. split; [now apply keqb_eq | assumption].
  - intros (e & Hin & Hc). apply andb_true_iff in Hc. destruct Hc as [Hk Hl].
    apply keqb_eq in Hk. exists e. split; [assumption|].
    apply filter_In. split.
    + apply filter_In. split; [assumption|]. apply has_In. now rewrite Hk.
    + apply existsb_exists in Hl. destruct Hl as (l & Hlin & Hc).
      apply andb_true_iff in Hc. destruct Hc as [Hid Hname].
      apply keqb_eq in Hid. apply has_In, in_map_iff.
      exists l. split; [assumption|]. apply filter_In. now split.
Qed.

Lemma filter_true {A : Type} (l : list A) : filter (fun _ => true) l = l.
Proof. induction l as [|x l IH]; simpl; congruence. Qed.

Lemma filterResults_shape (db : Store) (xs : list string)
  (params : AnnotSearchParams) :
  filterResults db xs params =
  filter (facetOk db params)
         (if bookmarksOnly params then filterByBookmarks db xs else xs).
Proof.
  unfold filterResults, facetOk.
  fold (tagsTriggered params). fold (collectionsTriggered params).
  set (ys := if bookmarksOnly params then _ else xs).
  destruct (tagsTriggered params), (collectionsTriggered params).
  - rewrite filterByCollections_filter, filterByTags_filter.
    apply filter_filter'.
  - rewrite filterByTags_filter. apply filter_ext.
    intros k. now rewrite andb_true_r.
  - rewrite filterByCollections_filter. reflexivity.
  - symmetry. apply filter_true.
Qed.

Lemma facetOk_spec (db : Store) (xs : list string)
  (params : AnnotSearchParams) (k : string) :
  In k xs ->
  (facetOk db params k = true <->
   (tagsTriggered params = true -> In k (filterByTags db xs params)) /\
   (collectionsTriggered params = true ->
      In k (filterByCollections db xs params))).
Proof.
  intros Hk. unfold facetOk.
  rewrite filterByTags_filter, filterByCollections_filter.
  rewrite andb_true_iff, !filter_In.
  destruct (tagsTriggered params), (collectionsTriggered params);
    intuition congruence.
Qed.

(** C8. The tag filter keeps a candidate key exactly when the tags table
    has a record for that key whose name survives both steps: the name
    is not in [tagsExc] (first step) and, when [tagsInc] is not empty,
    is in [tagsInc] (second step).  Hence a key all of whose tag records
    are named in [tagsExc] is dropped, whatever [tagsInc] holds: an
    excluded name never satisfies inclusion.  The kept keys stay in
    candidate order. *)
Theorem filterByTags_exclusion_before_inclusion (db : Store)
  (urls : list string) (params : AnnotSearchParams) :
  (forall k,
     In k (filterByTags db urls params) <->
     In k urls /\
     exists name, In (name, k) (tags db) /\
       ~ In name (elems (tagsExc params)) /\
       (elems (tagsInc params) = [] \/ In name (elems (tagsInc params)))) /\
  (forall k,
     (forall name, In (name, k) (tags db) ->
        In name (elems (tagsExc params))) ->
     ~ In k (filterByTags db urls params)) /\
  filterByTags db urls params = filter (hasPassingTag db params) urls.
Proof.
  assert (Hmain : forall k,
     In k (filterByTags db urls params) <->
     In k urls /\
     exists name, In (name, k) (tags db) /\
       ~ In name (elems (tagsExc params)) /\
       (elems (tagsInc params) = [] \/ In name (elems (tagsInc params)))).
  { intros k. rewrite filterByTags_filter, filter_In.
    apply and_iff_compat_l.
    unfold hasPassingTag, tagPasses. rewrite existsb_exists. split.
    - intros ([name u] & Hin & Hc). cbn [fst snd] in Hc.
      apply andb_true_iff in Hc. destruct Hc as [Hu Hc].
      apply keqb_eq in Hu. subst u.
      apply andb_true_iff in Hc. destruct Hc as [Hexc Hinc].
      exists name. split; [assumption|]. split.
      + apply has_false. now apply negb_true_iff.
      + destruct (nonEmpty (tagsInc params)) eqn:E.
        * right. now apply has_In.
        * left. now apply nonEmpty_false.
    - intros (name & Hin & Hexc & Hinc). exists (name, k).
      split; [assumption|]. cbn [fst snd].
      rewrite keqb_refl. cbn [andb]. apply andb_true_iff. split.
      + apply negb_true_iff. now apply has_false.
      + destruct (nonEmpty (tagsInc params)) eqn:E; [|reflexivity].
        destruct Hinc as [Hnil | Hinc]; [|now apply has_In].
        apply nonEmpty_true in E. contradiction. }
  split; [exact Hmain|]. split; [|apply filterByTags_filter].
  intros k Hall Hk. apply Hmain in Hk.
  destruct Hk as (_ & name & Hin & Hexc & _).
  apply Hexc. now apply Hall.
Qed.

(** C9. On a fixed store, filtering a second time changes nothing, and a
    key is in the output of [filterResults] exactly when it is a
    candidate and is in the output of every triggered filter (bookmark,
    tag, collection) run on the original candidates; a filter that is
    not triggered asks nothing, and when none is the candidates are
    returned as they are. *)
Theorem filterResults_idempotent_intersection (db : Store)
  (xs : list string) (params : AnnotSearchParams) :
  filterResults db (filterResults db xs params) params =
    filterResults db xs params /\
  (forall k,
     In k (filterResults db xs params) <->
     In k xs /\
     (bookmarksOnly params = true -> In k (filterByBookmarks db xs)) /\
     (tagsTriggered params = true -> In k (filterByTags db xs params)) /\
     (collectionsTriggered params = true ->
        In k (filterByCollections db xs params))) /\
  (bookmarksOnly params = false -> tagsTriggered params = false ->
   collectionsTriggered params = false -> filterResults db xs params = xs).
Proof.
  split; [|split].
  - rewrite !filterResults_shape.
    destruct (bookmarksOnly params).
    + unfold filterByBookmarks. rewrite !filter_filter'.
      apply filter_ext_in. intros k Hk.
      destruct (facetOk db params k) eqn:Ef;
        [rewrite !andb_true_r | now rewrite !andb_false_r].
      apply eq_true_iff_eq. rewrite !has_In, filter_In, andb_true_iff.
      rewrite has_In. intuition.
    + apply filter_idem.
  - intros k. rewrite filterResults_shape, filter_In.
    destruct (bookmarksOnly params) eqn:Eb.
    + unfold filterByBookmarks at 1. rewrite filter_In, has_In. split.
      * intros [[Hbm Hk] Hf]. split; [assumption|].
        split; [intros _; unfold filterByBookmarks;
                apply filter_In; split; [assumption | now apply has_In]|].
        now apply (facetOk_spec db xs params k Hk).
      * intros (Hk & Hb & Ht & Hc). specialize (Hb eq_refl).
        unfold filterByBookmarks in Hb. apply filter_In in Hb.
        split; [tauto|]. apply (facetOk_spec db xs params k Hk). tauto.
    + split.
      * intros [Hk Hf]. split; [assumption|].
        split; [discriminate|].
        now apply (facetOk_spec db xs params k Hk).
      * intros (Hk & _ & Ht & Hc). split; [assumption|].
        apply (facetOk_spec db xs params k Hk). tauto.
  - intros Eb Et Ec. rewrite filterResults_shape. unfold facetOk.
    rewrite Eb, Et, Ec. apply filter_true.
Qed.

(** ** Term search *)

Section UniqFacts.
Context {K : Type} `{Key K}.

Lemma uniqAcc_In (xs seen : list K) (x : K) :
  In x (Js.uniqAcc seen xs) <-> In x xs /\ ~ In x seen.
Proof.
  revert seen. induction xs as [|y xs IH]; intros seen; cbn [Js.uniqAcc].
  - simpl. tauto.
  - destruct (Js.has seen y) eqn:E.
    + apply has_In in E. rewrite IH. simpl. split.
      * tauto.
      * intros [[-> | Hx] Hn]; [contradiction | tauto].
    + apply has_false in E. simpl. rewrite IH, in_app_iff. simpl.
      split.
      * intros [-> | (Hx & Hn)]; [tauto|]. split; [tauto|]. tauto.
      * intros [[-> | Hx] Hn]; [tauto|].
        destruct (keqb y x) eqn:Eyx.
        -- apply keqb_eq in Eyx. tauto.
        -- apply keqb_neq in Eyx. right. split; [assumption|].
           intros [Hs | [Hy | []]]; [tauto | congruence].
Qed.

Lemma uniqAcc_NoDup (xs seen : list K) : NoDup (Js.uniqAcc seen xs).
Proof.
  revert seen. induction xs as [|y xs IH]; intros seen; cbn [Js.uniqAcc].
  - constructor.
  - destruct (Js.has seen y); [apply IH|].
    constructor; [|apply IH].
    rewrite uniqAcc_In, in_app_iff. simpl. tauto.
Qed.

Lemma uniq_In (xs : list K) (x : K) : In x (Js.uniq xs) <-> In x xs.
Proof. unfold Js.uniq. rewrite uniqAcc_In. simpl. tauto. Qed.

Lemma uniq_NoDup (xs : list K) : NoDup (Js.uniq xs).
Proof. apply uniqAcc_NoDup. Qed.

Lemma set_not_nil {V : Type} (k : K) (v : V) (m : list (K * V)) :
  Js.set k v m <> [].
Proof. destruct m as [|[k' v'] m]; simpl; [|destruct (keqb k k')]; discriminate. Qed.

Lemma set_In {V : Type} (k : K) (v : V) (m : list (K * V)) (kv : K * V) :
  In kv (Js.set k v m) -> kv = (k, v) \/ In kv m.
Proof.
  induction m as [|[k' v'] m IH]; simpl.
  - intuition congruence.
  - destruct (keqb k k'); simpl; intuition congruence.
Qed.

Lemma set_keys {V : Type} (k k0 : K) (v : V) (m : list (K * V)) :
  In k0 (map fst (Js.set k v m)) <-> k0 = k \/ In k0 (map fst m).
Proof.
  induction m as [|[k' v'] m IH]; simpl.
  - intuition congruence.
  - destruct (keqb k k') eqn:E; simpl.
    + apply keqb_eq in E. subst k'. intuition congruence.
    + rewrite IH. intuition congruence.
Qed.

Lemma set_same {V : Type} (k : K) (v : V) (m : list (K * V)) :
  In (k, v) (Js.set k v m).
Proof.
  induction m as [|[k' v'] m IH]; simpl.
  - now left.
  - destruct (keqb k k'); simpl; intuition congruence.
Qed.

Lemma set_other {V : Type} (k : K) (v : V) (m : list (K * V)) (kv : K * V) :
  In kv m -> fst kv <> k -> In kv (Js.set k v m).
Proof.
  induction m as [|[k' v'] m IH]; simpl; [tauto|].
  intros [<- | Hin] Hne.
  - simpl in Hne. destruct (keqb k k') eqn:E.
    + apply keqb_eq in E. congruence.
    + now left.
  - destruct (keqb k k'); simpl; [right | right; now apply IH].
    assumption.
Qed.

End UniqFacts.

Lemma queryTermsField_In (db : Store) (h : Host) (f : TermsField)
  (t : string) (params : AnnotSearchParams) (k : string) :
  In k (queryTermsField db h f t params) <->
  exists a, In a (annotations db) /\ url a = k /\
            inWindow h params a = true /\ In t (fieldTerms f a).
Proof.
  unfold queryTermsField, inWindow. rewrite in_map_iff.
  destruct (truthy (startDate params) || truthy (endDate params)).
  - split.
    + intros (a & Hk & Hin). apply filter_In in Hin. destruct Hin as [Hin Hw].
      apply filter_In in Hin. destruct Hin as [Hin Ht].
      exists a. repeat split; try assumption. now apply has_In.
    + intros (a & Hin & Hk & Hw & Ht). exists a. split; [assumption|].
      apply filter_In. split; [|assumption].
      apply filter_In. split; [assumption | now apply has_In].
  - split.
    + intros (a & Hk & Hin). apply filter_In in Hin. destruct Hin as [Hin Ht].
      exists a. repeat split; try assumption. now apply has_In.
    + intros (a & Hin & Hk & _ & Ht). exists a. split; [assumption|].
      apply filter_In. split; [assumption | now apply has_In].
Qed.

Lemma termKeys_In (db : Store) (h : Host) (params : AnnotSearchParams)
  (t k : string) :
  In k (termKeys db h params t) <->
  exists a, In a (annotations db) /\ url a = k /\
            inWindow h params a = true /\ fieldsHold params a t.
Proof.
  unfold termKeys, fieldsHold. rewrite uniq_In, in_concat. split.
  - intros (l & Hl & Hk). apply in_map_iff in Hl.
    destruct Hl as (f & <- & Hf). apply queryTermsField_In in Hk.
    destruct Hk as (a & Hin & Hu & Hw & Ht).
    exists a. repeat split; try assumption. now exists f.
  - intros (a & Hin & Hu & Hw & f & Hf & Ht).
    exists (queryTermsField db h f t params). split.
    + apply in_map_iff. now exists f.
    + apply queryTermsField_In. now exists a.
Qed.

Lemma lookupTerms_unfold (db : Store) (h : Host) (params : AnnotSearchParams) :
  lookupTerms db h params =
  reduce1 (fun a b => filter (fun res => Js.has b res) a)
    (map snd (fold_left (fun m t => Js.set t (termKeys db h params t) m)
                        (termsInc params) [])).
Proof. reflexivity. Qed.

Lemma termResults_values (g : string -> list string) (ts : list string)
  (m : list (string * list string)) :
  (forall kv, In kv m -> snd kv = g (fst kv)) ->
  forall kv, In kv (fold_left (fun m t => Js.set t (g t) m) ts m) ->
             snd kv = g (fst kv).
Proof.
  revert m. induction ts as [|t ts IH]; intros m Hm; cbn [fold_left].
  - exact Hm.
  - apply IH. intros kv Hkv. apply set_In in Hkv.
    destruct Hkv as [-> | Hkv]; [reflexivity | now apply Hm].
Qed.

Lemma termResults_keys (g : string -> list string) (ts : list string)
  (m : list (string * list string)) (t0 : string) :
  In t0 (map fst (fold_left (fun m t => Js.set t (g t) m) ts m)) <->
  In t0 ts \/ In t0 (map fst m).
Proof.
  revert m. induction ts as [|t ts IH]; intros m; cbn [fold_left].
  - simpl. tauto.
  - rewrite IH, set_keys. simpl. intuition congruence.
Qed.

Lemma intersect_In (r : list (list string)) (x : list string) (k : string) :
  In k (fold_left (fun a b => filter (fun res => Js.has b res) a) r x) <->
  In k x /\ forall b, In b r -> In k b.
Proof.
  revert x. induction r as [|b r IH]; intros x; cbn [fold_left].
  - simpl. intuition.
  - rewrite IH, filter_In, has_In. simpl. split.
    + intros [[Hx Hb] Hr]. split; [assumption|].
      intros b' [<- | Hb']; [assumption | now apply Hr].
    + intros [Hx Hall]. repeat split; auto.
Qed.

Lemma intersect_NoDup (r : list (list string)) (x : list string) :
  NoDup x ->
  NoDup (fold_left (fun a b => filter (fun res => Js.has b res) a) r x).
Proof.
  revert x. induction r as [|b r IH]; intros x Hx; cbn [fold_left].
  - exact Hx.
  - apply IH. now apply NoDup_filter.
Qed.

Lemma NoDup_map_inj {A B : Type} (f : A -> B) (l : list A) (a b : A) :
  NoDup (map f l) -> In a l -> In b l -> f a = f b -> a = b.
Proof.
  induction l as [|x l IH]; simpl; [tauto|].
  intros Hnd Ha Hb Hf. inversion Hnd as [|? ? Hx Hl]; subst.
  destruct Ha as [-> | Ha], Hb as [-> | Hb].
  - reflexivity.
  - exfalso. apply Hx. rewrite Hf. now apply in_map.
  - exfalso. apply Hx. rewrite <- Hf. now apply in_map.
  - now apply IH.
Qed.

(** C10. With an empty [termsInc], whichever text fields are enabled,
    [lookupTerms] throws: no term is stored, and the reduction over the
    per-term results has nothing to start from.  [searchAnnots] calls
    [lookupTerms] first and so throws the same exception. *)
Theorem lookupTerms_empty_terms_throws (db : Store) (h : Host)
  (params : AnnotSearchParams) :
  termsInc params = [] ->
  lookupTerms db h params = Err ReduceOfEmptyArray /\
  searchAnnots db h params = Some (Err ReduceOfEmptyArray).
Proof.
  intros Ht.
  assert (Hl : lookupTerms db h params = Err ReduceOfEmptyArray).
  { rewrite lookupTerms_unfold, Ht. reflexivity. }
  split; [exact Hl|]. unfold searchAnnots. now rewrite Hl.
Qed.

(** The keys [lookupTerms] returns, in terms of the fields it queries. *)
Lemma lookupTerms_keys_iff (db : Store) (h : Host)
  (params : AnnotSearchParams) :
  termsInc params <> [] ->
  NoDup (map url (annotations db)) ->
  exists keys,
    lookupTerms db h params = Ok keys /\
    NoDup keys /\
    forall k,
      In k keys <->
      exists a, In a (annotations db) /\ url a = k /\
                inWindow h params a = true /\
                forall t, In t (termsInc params) -> fieldsHold params a t.
Proof.
  intros Hne Hpk. rewrite lookupTerms_unfold.
  set (g := termKeys db h params).
  set (results := fold_left (fun m t => Js.set t (g t) m) (termsInc params) []).
  assert (Hvals : forall kv, In kv results -> snd kv = g (fst kv)).
  { apply termResults_values. intros kv []. }
  assert (Hkeys : forall t, In t (map fst results) <-> In t (termsInc params)).
  { intros t. unfold results. rewrite termResults_keys. simpl. tauto. }
  assert (Hall : forall k,
            (forall v, In v (map snd results) -> In k v) <->
            (forall t, In t (termsInc params) -> In k (g t))).
  { intros k. split.
    - intros Hv t Ht. apply Hkeys, in_map_iff in Ht.
      destruct Ht as (kv & <- & Hkv). rewrite <- (Hvals kv Hkv).
      apply Hv. now apply in_map.
    - intros Ht v Hv. apply in_map_iff in Hv.
      destruct Hv as (kv & <- & Hkv). rewrite (Hvals kv Hkv).
      apply Ht, Hkeys. now apply in_map. }
  destruct (termsInc params) as [|t0 ts] eqn:ET; [congruence|].
  destruct (map snd results) as [|x r] eqn:EV.
  { exfalso. assert (Hin : In t0 (map fst results)) by (apply Hkeys; now left).
    destruct results; [destruct Hin | discriminate]. }
  cbn [reduce1]. eexists. split; [reflexivity|]. split.
  - apply intersect_NoDup.
    assert (Hx : In x (map snd results)) by (rewrite EV; now left).
    apply in_map_iff in Hx. destruct Hx as (kv & <- & Hkv).
    rewrite (Hvals kv Hkv). apply uniq_NoDup.
  - intros k. rewrite intersect_In.
    assert (Hcons : (In k x /\ (forall b, In b r -> In k b)) <->
                    (forall v, In v (x :: r) -> In k v)).
    { simpl. split.
      - intros [Hx Hr] v [<- | Hv]; auto.
      - intros Hv. split; [apply Hv; now left|].
        intros b Hb. apply Hv. now right. }
    rewrite Hcons, Hall. clear Hcons. split.
    + intros Ht. destruct (proj1 (termKeys_In db h params t0 k)) as
        (a & Hin & Hu & Hw & _); [apply Ht; now left|].
      exists a. repeat split; try assumption.
      intros t Hin'. destruct (proj1 (termKeys_In db h params t k)) as
        (a' & Hin2 & Hu' & _ & Hf); [now apply Ht|].
      assert (a' = a) as <-; [|assumption].
      apply (NoDup_map_inj url (annotations db)); congruence.
    + intros (a & Hin & Hu & Hw & Hf) t Ht.
      apply termKeys_In. exists a. auto.
Qed.

Lemma fieldsHold_termInField (params : AnnotSearchParams) (a : Annotation)
  (t : string) :
  fieldsHold params a t <-> termInField params a t.
Proof.
  unfold fieldsHold, termInField, enabledFields.
  destruct (includeHighlights params), (includeNotes params);
    cbn [app]; split.
  - intros (f & [<- | [<- | []]] & Ht); [left | right]; now split.
  - intros [[_ Ht] | [_ Ht]];
      [exists BodyTerms | exists CommentTerms]; split; simpl; auto.
  - intros (f & [<- | []] & Ht). left. now split.
  - intros [[_ Ht] | [E _]]; [|discriminate].
    exists BodyTerms. split; simpl; auto.
  - intros (f & [<- | []] & Ht). right. now split.
  - intros [[E _] | [_ Ht]]; [discriminate|].
    exists CommentTerms. split; simpl; auto.
  - intros (f & [] & _).
  - intros [[E _] | [E _]]; discriminate.
Qed.

(** C4. For a non-empty term list, any choice of [includeHighlights] and
    [includeNotes] and any store whose annotation keys are unique,
    [lookupTerms] returns, without repetition, exactly the keys of the
    annotations (inside the date window, when the query gives one) for
    which every term occurs in the highlight terms with highlights
    included or in the note terms with notes included.  The terms need
    not all occur in the same field: with both fields included, an
    annotation that holds each term in its highlight or in its note is
    returned. *)
Theorem lookupTerms_all_terms (db : Store) (h : Host)
  (params : AnnotSearchParams) :
  termsInc params <> [] ->
  NoDup (map url (annotations db)) ->
  exists keys,
    lookupTerms db h params = Ok keys /\
    NoDup keys /\
    (forall k,
       In k keys <->
       exists a, In a (annotations db) /\ url a = k /\
                 inWindow h params a = true /\
                 forall t, In t (termsInc params) -> termInField params a t) /\
    (forall a,
       In a (annotations db) -> inWindow h params a = true ->
       includeHighlights params = true -> includeNotes params = true ->
       (forall t, In t (termsInc params) ->
          In t (_body_terms a) \/ In t (_comment_terms a)) ->
       In (url a) keys).
Proof.
  intros Hne Hpk.
  destruct (lookupTerms_keys_iff db h params Hne Hpk)
    as (keys & Hk & Hnd & Hiff).
  assert (Hiff' : forall k,
     In k keys <->
     exists a, In a (annotations db) /\ url a = k /\
               inWindow h params a = true /\
               forall t, In t (termsInc params) -> termInField params a t).
  { intros k. rewrite Hiff. split.
    - intros (a & Ha & Hu & Hw & Hf). exists a. repeat split; try assumption.
      intros t Ht. apply fieldsHold_termInField. now apply Hf.
    - intros (a & Ha & Hu & Hw & Hf). exists a. repeat split; try assumption.
      intros t Ht. apply fieldsHold_termInField. now apply Hf. }
  exists keys. split; [exact Hk|]. split; [exact Hnd|].
  split; [exact Hiff'|].
  intros a Ha Hw Hh Hn Hall. apply Hiff'. exists a.
  repeat split; try assumption.
  intros t Ht. destruct (Hall t Ht) as [Hb | Hc].
  - left. now split.
  - right. now split.
Qed.

Lemma intersect_nil (r : list (list string)) :
  fold_left (fun a b => filter (fun res => Js.has b res) a) r [] = [].
Proof. induction r as [|b r IH]; [reflexivity | exact IH]. Qed.

Lemma termKeys_no_fields (db : Store) (h : Host) (params : AnnotSearchParams)
  (t : string) :
  includeHighlights params = false -> includeNotes params = false ->
  termKeys db h params t = [].
Proof.
  intros Hh Hn. unfold termKeys, enabledFields. now rewrite Hh, Hn.
Qed.

Lemma filterResults_nil (db : Store) (params : AnnotSearchParams) :
  filterResults db [] params = [].
Proof.
  rewrite filterResults_shape.
  assert (Hb : filterByBookmarks db [] = []).
  { unfold filterByBookmarks. induction (bookmarks db); [reflexivity | assumption]. }
  destruct (bookmarksOnly params); [rewrite Hb|]; reflexivity.
Qed.

Lemma paginateAnnotsResults_nil (db : Store) (params : AnnotSearchParams) :
  paginateAnnotsResults db [] params = Some (Ok []).
Proof.
  unfold paginateAnnotsResults. cbn [length paginate_loop].
  destruct (0 <? limit params); [|reflexivity].
  unfold Js.slice. cbn [skipn]. now rewrite firstn_nil.
Qed.

(** C3, as the code has it.  With a non-empty [termsInc] and neither
    text field enabled, [lookupTerms] returns the empty key list and
    [searchAnnots] returns an empty page map.  Neither raises an
    error. *)
Theorem lookupTerms_no_fields_empty (db : Store) (h : Host)
  (params : AnnotSearchParams) :
  termsInc params <> [] ->
  includeHighlights params = false ->
  includeNotes params = false ->
  lookupTerms db h params = Ok [] /\
  searchAnnots db h params = Some (Ok []).
Proof.
  intros Hne Hh Hn.
  assert (Hl : lookupTerms db h params = Ok []).
  { rewrite lookupTerms_unfold.
    set (g := termKeys db h params).
    set (results :=
           fold_left (fun m t => Js.set t (g t) m) (termsInc params) []).
    assert (Hvals : forall kv, In kv results -> snd kv = []).
    { intros kv Hkv.
      rewrite (termResults_values g (termsInc params) [] (fun kv F => match F with end) kv Hkv).
      now apply termKeys_no_fields. }
    assert (Hres : results <> []).
    { unfold results. destruct (termsInc params) as [|t ts]; [congruence|].
      intros E.
      assert (Hin : In t (map fst (fold_left (fun m t => Js.set t (g t) m)
                                             (t :: ts) []))).
      { apply termResults_keys. left. now left. }
      rewrite E in Hin. destruct Hin. }
    destruct results as [|kv rest]; [congruence|].
    cbn [map reduce1]. rewrite (Hvals kv (or_introl eq_refl)).
    now rewrite intersect_nil. }
  split; [exact Hl|].
  unfold searchAnnots. rewrite Hl, filterResults_nil.
  apply paginateAnnotsResults_nil.
Qed.

(** The amended C3 at a concrete query: the term [alpha] with both
    fields switched off. *)
Lemma lookupTerms_no_fields_empty_witness :
  lookupTerms Sample.db Sample.host
    (Sample.query ["alpha"%string] false false None 10 0) = Ok [] /\
  searchAnnots Sample.db Sample.host
    (Sample.query ["alpha"%string] false false None 10 0) = Some (Ok []).
Proof.
  apply lookupTerms_no_fields_empty; [discriminate | reflexivity | reflexivity].
Defined.

(** C3 as stated fails: on the sample store the term search with no
    enabled field returns a result, it does not fail. *)
Lemma lookupTerms_no_fields_no_error :
  ~ (exists e, lookupTerms Sample.db Sample.host
        (Sample.query ["alpha"%string] false false None 10 0) = Err e) /\
  ~ (exists e, searchAnnots Sample.db Sample.host
        (Sample.query ["alpha"%string] false false None 10 0) = Some (Err e)).
Proof.
  split; intros [e He]; vm_compute in He; discriminate.
Qed.

(** The hypothesis of C10 at a concrete query. *)
Lemma lookupTerms_empty_terms_throws_witness :
  lookupTerms Sample.db Sample.host
    (Sample.query [] true true None 10 0) = Err ReduceOfEmptyArray /\
  searchAnnots Sample.db Sample.host
    (Sample.query [] true true None 10 0) = Some (Err ReduceOfEmptyArray).
Proof.
  apply lookupTerms_empty_terms_throws. reflexivity.
Defined.

(** The hypotheses of C4 at a concrete query: [alpha] and [beta] over
    both fields.  [P#1] holds [alpha] only in its highlight and [beta]
    only in its note, and is returned. *)
Lemma lookupTerms_all_terms_witness :
  lookupTerms Sample.db Sample.host
    (Sample.query ["alpha"; "beta"]%string true true None 10 0) =
    Ok ["P#1"; "P#2"]%string /\
  exists keys,
    lookupTerms Sample.db Sample.host
      (Sample.query ["alpha"; "beta"]%string true true None 10 0) = Ok keys /\
    NoDup keys /\
    (forall k,
       In k keys <->
       exists a, In a (annotations Sample.db) /\ url a = k /\
         inWindow Sample.host
           (Sample.query ["alpha"; "beta"]%string true true None 10 0) a = true /\
         forall t,
           In t (termsInc (Sample.query ["alpha"; "beta"]%string true true None 10 0)) ->
           termInField (Sample.query ["alpha"; "beta"]%string true true None 10 0) a t) /\
    (forall a,
       In a (annotations Sample.db) ->
       inWindow Sample.host
         (Sample.query ["alpha"; "beta"]%string true true None 10 0) a = true ->
       includeHighlights
         (Sample.query ["alpha"; "beta"]%string true true None 10 0) = true ->
       includeNotes
         (Sample.query ["alpha"; "beta"]%string true true None 10 0) = true ->
       (forall t,
          In t (termsInc (Sample.query ["alpha"; "beta"]%string true true None 10 0)) ->
          In t (_body_terms a) \/ In t (_comment_terms a)) ->
       In (url a) keys).
Proof.
  split; [reflexivity|].
  apply lookupTerms_all_terms.
  - discriminate.
  - vm_compute. repeat constructor; simpl; intuition discriminate.
Defined.

(** ** Listing the annotations of one page *)

(** Every round of the loop issues the same query: nothing in the loop
    state reaches [listWithUrl].  A full first batch is therefore
    followed by a full batch for ever. *)
Lemma listAnnotsByPage_loop_full_batch (db : Store) (h : Host)
  (params : AnnotSearchParams) (innerLimit : nat) (coll : list Annotation) :
  listWithUrl db h params = Ok coll ->
  innerLimit <= length coll ->
  forall fuel results,
    listAnnotsByPage_loop fuel db h params innerLimit results = None.
Proof.
  intros Hcoll Hfull. induction fuel as [|fuel IH]; intros results.
  - reflexivity.
  - cbn [listAnnotsByPage_loop]. rewrite Hcoll.
    rewrite length_map, length_firstn, Nat.min_l by assumption.
    rewrite Nat.leb_refl. apply IH.
Qed.

(** A short first batch ends the loop after one round. *)
Lemma listAnnotsByPage_loop_short_batch (db : Store) (h : Host)
  (params : AnnotSearchParams) (innerLimit : nat) (coll : list Annotation) :
  listWithUrl db h params = Ok coll ->
  length coll < innerLimit ->
  forall fuel results,
    listAnnotsByPage_loop (S fuel) db h params innerLimit results =
    Some (Ok (results ++ filterResults db (map url coll) params)).
Proof.
  intros Hcoll Hshort fuel results.
  cbn [listAnnotsByPage_loop]. rewrite Hcoll.
  rewrite firstn_all2 by lia. rewrite length_map.
  destruct (innerLimit <=? length coll) eqn:E; [|reflexivity].
  apply Nat.leb_le in E. lia.
Qed.

(** C1, where the code departs from it.  When the page has at least
    [limit * innerLimitMultiplier] annotations in the date window, the
    loop of [listAnnotsByPage] does not end: whatever the fuel, no
    result is produced.  The loop keeps no skip offset. *)
Theorem listAnnotsByPage_full_batch_diverges (db : Store) (h : Host)
  (params : AnnotSearchParams) (innerLimitMultiplier : nat)
  (coll : list Annotation) :
  listWithUrl db h params = Ok coll ->
  limit params * innerLimitMultiplier <= length coll ->
  forall fuel,
    listAnnotsByPage fuel db h params innerLimitMultiplier = None.
Proof.
  intros Hcoll Hfull fuel. unfold listAnnotsByPage.
  now rewrite (listAnnotsByPage_loop_full_batch db h params Hcoll Hfull).
Qed.

(** Page [P] of the sample store has two annotations; with [limit = 1]
    and the default multiplier the batch size is two. *)
Lemma listAnnotsByPage_full_batch_diverges_witness :
  listWithUrl Sample.db Sample.host
    (Sample.query [] true true (Some "P"%string) 1 0) =
    Ok [Sample.a1; Sample.a2] /\
  (forall fuel,
     listAnnotsByPage fuel Sample.db Sample.host
       (Sample.query [] true true (Some "P"%string) 1 0)
       DEF_INNER_LIMIT_MULTI = None).
Proof.
  split; [reflexivity|].
  apply (@listAnnotsByPage_full_batch_diverges Sample.db Sample.host
           (Sample.query [] true true (Some "P"%string) 1 0)
           DEF_INNER_LIMIT_MULTI [Sample.a1; Sample.a2]).
  - reflexivity.
  - vm_compute. repeat constructor.
Defined.

(** C2, as the code has it.  When the page has fewer than
    [limit * innerLimitMultiplier] annotations in the date window, the
    loop ends after one round and [listAnnotsByPage] returns at most
    [limit] entries: the slice [[skip, skip + limit)] of the filtered
    keys when there are more than [limit] of them, and all of them, with
    [skip] left unapplied, when there are at most [limit]. *)
Theorem listAnnotsByPage_page (db : Store) (h : Host)
  (params : AnnotSearchParams) (innerLimitMultiplier : nat)
  (coll : list Annotation) (fuel : nat) :
  listWithUrl db h params = Ok coll ->
  length coll < limit params * innerLimitMultiplier ->
  fuel <> 0 ->
  let filtered := filterResults db (map url coll) params in
  let page :=
    if limit params <? length filtered
    then Js.slice (skip params) (skip params + limit params) filtered
    else filtered in
  listAnnotsByPage fuel db h params innerLimitMultiplier =
    Some (Ok (mapUrlsToAnnots db page)) /\
  length (mapUrlsToAnnots db page) <= limit params /\
  (length filtered <= limit params -> page = filtered).
Proof.
  intros Hcoll Hshort Hfuel filtered page.
  destruct fuel as [|fuel]; [congruence|].
  split; [|split].
  - unfold listAnnotsByPage.
    rewrite (listAnnotsByPage_loop_short_batch db h params Hcoll Hshort).
    reflexivity.
  - unfold mapUrlsToAnnots. rewrite length_map. unfold page.
    destruct (limit params <? length filtered) eqn:E.
    + unfold Js.slice. rewrite length_firstn. lia.
    + apply Nat.ltb_ge in E. exact E.
  - intros Hle. unfold page.
    destruct (limit params <? length filtered) eqn:E; [|reflexivity].
    apply Nat.ltb_lt in E. lia.
Qed.

(** Page [P] of the sample store, [limit = 2], [skip = 1]: two matches,
    batch size four. *)
Lemma listAnnotsByPage_page_witness :
  let params := Sample.query [] true true (Some "P"%string) 2 1 in
  let filtered :=
    filterResults Sample.db (map url [Sample.a1; Sample.a2]) params in
  let page :=
    if limit params <? length filtered
    then Js.slice (skip params) (skip params + limit params) filtered
    else filtered in
  listAnnotsByPage 1 Sample.db Sample.host params DEF_INNER_LIMIT_MULTI =
    Some (Ok (mapUrlsToAnnots Sample.db page)) /\
  length (mapUrlsToAnnots Sample.db page) <= limit params /\
  (length filtered <= limit params -> page = filtered).
Proof.
  apply (@listAnnotsByPage_page Sample.db Sample.host
           (Sample.query [] true true (Some "P"%string) 2 1)
           DEF_INNER_LIMIT_MULTI [Sample.a1; Sample.a2] 1).
  - reflexivity.
  - vm_compute. repeat constructor.
  - discriminate.
Defined.

(** C2 as stated fails: with [limit = 2] and [skip = 1] on a page that
    has two annotations, both are returned; the result does not start at
    the match of index [skip]. *)
Lemma listAnnotsByPage_skip_unapplied :
  let params := Sample.query [] true true (Some "P"%string) 2 1 in
  let filtered :=
    filterResults Sample.db (map url [Sample.a1; Sample.a2]) params in
  listWithUrl Sample.db Sample.host params = Ok [Sample.a1; Sample.a2] /\
  listAnnotsByPage 1 Sample.db Sample.host params DEF_INNER_LIMIT_MULTI =
    Some (Ok [Some Sample.a1; Some Sample.a2]) /\
  mapUrlsToAnnots Sample.db
    (Js.slice (skip params) (skip params + limit params) filtered) =
    [Some Sample.a2] /\
  listAnnotsByPage 1 Sample.db Sample.host params DEF_INNER_LIMIT_MULTI <>
    Some (Ok (mapUrlsToAnnots Sample.db
       (Js.slice (skip params) (skip params + limit params) filtered))).
Proof.
  cbv zeta. repeat split; try reflexivity.
  vm_compute. discriminate.
Qed.

(** ** Clustering by day and page *)

Section Grouping.
Context {K A : Type} `{Key K} (key : A -> K).

Lemma set_keys_eq {V : Type} (k : K) (v : V) (m : list (K * V)) :
  map fst (Js.set k v m) =
  if Js.has (map fst m) k then map fst m else map fst m ++ [k].
Proof.
  induction m as [|[k' v'] m IH]; [reflexivity|].
  cbn [Js.set map fst Js.has existsb].
  fold (Js.has (map fst m) k).
  destruct (keqb k k') eqn:E; cbn [orb map fst].
  - apply keqb_eq in E. now subst.
  - rewrite IH. now destruct (Js.has (map fst m) k).
Qed.

Lemma set_fresh {V : Type} (k : K) (v : V) (m : list (K * V)) :
  ~ In k (map fst m) -> Js.set k v m = m ++ [(k, v)].
Proof.
  induction m as [|[k' v'] m IH]; intros Hk; [reflexivity|].
  simpl in Hk. cbn [Js.set].
  destruct (keqb k k') eqn:E.
  - apply keqb_eq in E. subst. tauto.
  - simpl. rewrite IH; tauto.
Qed.

Lemma set_NoDup {V : Type} (k : K) (v : V) (m : list (K * V)) :
  NoDup (map fst m) -> NoDup (map fst (Js.set k v m)).
Proof.
  intros Hm. rewrite set_keys_eq.
  destruct (Js.has (map fst m) k) eqn:E; [assumption|].
  apply has_false in E.
  apply NoDup_app; [assumption | repeat constructor; intros [] |].
  intros x Hx [<- | []]. contradiction.
Qed.

Lemma getOrEmpty_set {V : Type} (k k' : K) (v : list V)
  (m : list (K * list V)) :
  Js.getOrEmpty (Js.set k' v m) k =
  if keqb k k' then v else Js.getOrEmpty m k.
Proof.
  unfold Js.getOrEmpty. rewrite get_set. now destruct (keqb k k').
Qed.

Lemma get_In {V : Type} (k : K) (v : V) (m : list (K * V)) :
  NoDup (map fst m) -> In (k, v) m -> Js.get m k = Some v.
Proof.
  induction m as [|[k' v'] m IH]; simpl; [tauto|].
  intros Hnd Hin. inversion Hnd as [|? ? Hk' Hm]; subst.
  destruct Hin as [E | Hin].
  - inversion E; subst. now rewrite keqb_refl.
  - destruct (keqb k k') eqn:E.
    + apply keqb_eq in E. subst k'. exfalso. apply Hk'.
      change k with (fst (k, v)). now apply in_map.
    + now apply IH.
Qed.

Lemma groupInto_NoDup (xs : list A) (m : list (K * list A)) :
  NoDup (map fst m) -> NoDup (map fst (groupInto key xs m)).
Proof.
  revert m. induction xs as [|a xs IH]; intros m Hm; [exact Hm|].
  apply IH. now apply set_NoDup.
Qed.

Lemma groupInto_bucket (xs : list A) (m : list (K * list A)) (k : K)
  (l : list A) :
  NoDup (map fst m) ->
  In (k, l) (groupInto key xs m) ->
  l = Js.getOrEmpty m k ++ filter (fun a => keqb (key a) k) xs.
Proof.
  revert m. induction xs as [|a xs IH]; intros m Hm Hin.
  - cbn [groupInto fold_left] in Hin. unfold Js.getOrEmpty.
    rewrite (get_In _ _ _ Hm Hin). cbn [filter]. now rewrite app_nil_r.
  - apply IH in Hin; [|now apply set_NoDup].
    rewrite getOrEmpty_set in Hin. cbn [filter].
    rewrite (keqb_sym (key a) k).
    destruct (keqb k (key a)) eqn:E; [|exact Hin].
    apply keqb_eq in E. subst k. now rewrite <- app_assoc in Hin.
Qed.

Lemma groupInto_keys (xs : list A) (m : list (K * list A)) (k : K) :
  In k (map fst (groupInto key xs m)) ->
  In k (map fst m) \/ exists a, In a xs /\ key a = k.
Proof.
  revert m. induction xs as [|a xs IH]; intros m Hin; [now left|].
  apply IH in Hin. destruct Hin as [Hin | (b & Hb & Hk)].
  - apply set_keys in Hin. destruct Hin as [-> | Hin]; [|now left].
    right. exists a. split; [now left | reflexivity].
  - right. exists b. split; [now right | assumption].
Qed.

Lemma set_append_perm (a : A) (k : K) (m : list (K * list A)) :
  Permutation
    (concat (map snd (Js.set k (Js.getOrEmpty m k ++ [a]) m)))
    (concat (map snd m) ++ [a]).
Proof.
  induction m as [|[k' v'] m IH].
  - apply Permutation_refl.
  - unfold Js.getOrEmpty in *. cbn [Js.set Js.get].
    destruct (keqb k k') eqn:E; cbn [map snd concat].
    + rewrite <- !app_assoc. apply Permutation_app_head.
      apply Permutation_app_comm.
    + rewrite <- app_assoc. apply Permutation_app_head. exact IH.
Qed.

Lemma groupInto_perm (xs : list A) (m : list (K * list A)) :
  Permutation (concat (map snd (groupInto key xs m)))
              (concat (map snd m) ++ xs).
Proof.
  revert m. induction xs as [|a xs IH]; intros m.
  - cbn [groupInto fold_left]. now rewrite app_nil_r.
  - cbn [groupInto fold_left]. etransitivity; [apply IH|].
    rewrite (set_append_perm a (key a) m).
    now rewrite <- app_assoc.
Qed.

End Grouping.

Lemma insertBy_perm {A : Type} (leb : A -> A -> bool) (x : A) (l : list A) :
  Permutation (insertBy leb x l) (x :: l).
Proof.
  induction l as [|y l IH]; cbn [insertBy]; [apply Permutation_refl|].
  destruct (leb x y); [apply Permutation_refl|].
  etransitivity; [apply perm_skip, IH | apply perm_swap].
Qed.

Lemma sortBy_perm {A : Type} (leb : A -> A -> bool) (l : list A) :
  Permutation (sortBy leb l) l.
Proof.
  induction l as [|x l IH]; [apply Permutation_refl|].
  cbn [sortBy fold_right]. fold (sortBy leb l).
  etransitivity; [apply insertBy_perm | now apply perm_skip].
Qed.

Lemma insertBy_editedDesc_sorted (x : Annotation) (l : list Annotation) :
  recentFirst l -> recentFirst (insertBy editedDesc x l).
Proof.
  unfold recentFirst. induction l as [|y l IH]; intros Hl; cbn [insertBy].
  - repeat constructor.
  - inversion Hl as [|? ? Hs Hall]; subst.
    unfold editedDesc at 1. destruct (_ <=? 0)%Z eqn:E.
    + apply Z.leb_le in E. constructor; [assumption|].
      constructor; [lia|].
      eapply Forall_impl; [|exact Hall]. intros z Hz. cbv beta in Hz. lia.
    + apply Z.leb_gt in E. constructor; [now apply IH|].
      apply (Permutation_Forall (Permutation_sym (insertBy_perm editedDesc x l))).
      constructor; [lia | assumption].
Qed.

Lemma sortBy_editedDesc_sorted (l : list Annotation) :
  recentFirst (sortBy editedDesc l).
Proof.
  induction l as [|x l IH]; [constructor|].
  cbn [sortBy fold_right]. now apply insertBy_editedDesc_sorted.
Qed.

Lemma StronglySorted_filter {A : Type} (R : A -> A -> Prop) (f : A -> bool)
  (l : list A) :
  StronglySorted R l -> StronglySorted R (filter f l).
Proof.
  induction 1 as [|x l Hs IH Hall]; cbn [filter]; [constructor|].
  destruct (f x); [|assumption].
  constructor; [assumption|].
  apply Forall_forall. intros y Hy. apply filter_In in Hy.
  rewrite Forall_forall in Hall. now apply Hall.
Qed.

Lemma startOfDay_aligned (h : Host) (t : Z) :
  startOfDay h (startOfDay h t) = startOfDay h t.
Proof.
  unfold startOfDay, msPerDay.
  assert (E : ((t - (t + utcOffset h) mod 86400000 + utcOffset h)
               mod 86400000 = 0)%Z).
  { pose proof (Z.div_mod (t + utcOffset h) 86400000 ltac:(lia)) as D.
    replace (t - (t + utcOffset h) mod 86400000 + utcOffset h)%Z
      with (((t + utcOffset h) / 86400000) * 86400000)%Z by lia.
    apply Z.mod_mul. lia. }
  rewrite E. lia.
Qed.

Lemma startOfDay_midnight (h : Host) (t : Z) :
  ((startOfDay h t + utcOffset h) mod msPerDay = 0)%Z.
Proof.
  unfold startOfDay, msPerDay.
  pose proof (Z.div_mod (t + utcOffset h) 86400000 ltac:(lia)) as D.
  replace (t - (t + utcOffset h) mod 86400000 + utcOffset h)%Z
    with (((t + utcOffset h) / 86400000) * 86400000)%Z by lia.
  apply Z.mod_mul. lia.
Qed.

Lemma startOfDay_within (h : Host) (t : Z) :
  (startOfDay h t <= t < startOfDay h t + msPerDay)%Z.
Proof.
  unfold startOfDay, msPerDay.
  pose proof (Z.mod_pos_bound (t + utcOffset h) 86400000 ltac:(lia)).
  lia.
Qed.

Lemma clusterAnnotsByDays_groupInto (h : Host) (annots : list Annotation) :
  clusterAnnotsByDays h annots =
  groupInto (fun a => startOfDay h (lastEdited a))
            (sortBy editedDesc annots) [].
Proof. reflexivity. Qed.

Lemma clusterAnnotsByPage_fold (days : list (Z * list Annotation))
  (acc : DayMap) :
  NoDup (map fst acc ++ map fst days) ->
  fold_left
    (fun annotsByPage '(date, matching) =>
       let pageMap :=
         fold_left
           (fun pageMap annot =>
              let existing := Js.getOrEmpty pageMap (pageUrl annot) in
              Js.set (pageUrl annot) (existing ++ [annot]) pageMap)
           matching ([] : PageMap) in
       Js.set date pageMap annotsByPage)
    days acc =
  acc ++ map (fun d => (fst d, groupInto pageUrl (snd d) [])) days.
Proof.
  revert acc. induction days as [|[date matching] days IH]; intros acc Hnd.
  - cbn [fold_left map]. now rewrite app_nil_r.
  - cbn [fold_left map fst snd]. rewrite set_fresh.
    + rewrite IH.
      * now rewrite <- app_assoc.
      * rewrite map_app. cbn [map fst] in *. now rewrite <- app_assoc.
    + cbn [map fst] in Hnd. apply NoDup_remove_2 in Hnd.
      intros Hin. apply Hnd. apply in_or_app. now left.
Qed.

Lemma clusterAnnotsByPage_map (h : Host) (annots : list Annotation) :
  clusterAnnotsByPage h annots =
  map (fun d => (fst d, groupInto pageUrl (snd d) []))
      (clusterAnnotsByDays h annots).
Proof.
  unfold clusterAnnotsByPage. rewrite clusterAnnotsByPage_fold.
  - reflexivity.
  - cbn [map app]. rewrite clusterAnnotsByDays_groupInto.
    apply groupInto_NoDup. constructor.
Qed.

Lemma concat_map_perm {A B : Type} (f : A -> list B) (g : A -> list B)
  (l : list A) :
  (forall x, In x l -> Permutation (f x) (g x)) ->
  Permutation (concat (map f l)) (concat (map g l)).
Proof.
  induction l as [|x l IH]; intros Hfg; cbn [map concat].
  - apply Permutation_refl.
  - apply Permutation_app; [apply Hfg; now left|].
    apply IH. intros y Hy. apply Hfg. now right.
Qed.

(** C6. The clustering by day and page puts every annotation of its
    input in exactly one bucket: the buckets together are a permutation
    of the input, no day key and, within a day, no page key occurs
    twice, and an annotation lies in the bucket of the day its last edit
    falls in (from the day key up to 24 hours later) and of its own
    page.  Every day key is a local midnight (a multiple of a day once
    the offset from UTC is added), and every bucket lists its
    annotations most recent edit first. *)
Theorem clusterAnnotsByPage_buckets (h : Host) (annots : list Annotation) :
  Permutation (flatten (clusterAnnotsByPage h annots)) annots /\
  NoDup (map fst (clusterAnnotsByPage h annots)) /\
  (forall date pages,
     In (date, pages) (clusterAnnotsByPage h annots) ->
     ((date + utcOffset h) mod msPerDay = 0)%Z /\
     NoDup (map fst pages) /\
     forall page bucket,
       In (page, bucket) pages ->
       recentFirst bucket /\
       forall a, In a bucket ->
         (date <= lastEdited a < date + msPerDay)%Z /\ pageUrl a = page).
Proof.
  rewrite clusterAnnotsByPage_map.
  set (dayKey := fun a : Annotation => startOfDay h (lastEdited a)).
  assert (Hdays : clusterAnnotsByDays h annots =
                  groupInto dayKey (sortBy editedDesc annots) [])
    by reflexivity.
  assert (Hnd : NoDup (map fst (clusterAnnotsByDays h annots))).
  { rewrite Hdays. apply groupInto_NoDup. constructor. }
  split; [|split].
  - unfold flatten. rewrite map_map. cbn [snd].
    etransitivity.
    + apply concat_map_perm with (g := snd). intros d _.
      apply (groupInto_perm pageUrl (snd d) []).
    + rewrite Hdays.
      etransitivity; [apply (groupInto_perm dayKey _ [])|].
      cbn [map concat app]. apply sortBy_perm.
  - rewrite map_map. cbn [fst]. exact Hnd.
  - intros date pages Hin. apply in_map_iff in Hin.
    destruct Hin as ([date' l] & E & Hd). cbn [fst snd] in E.
    inversion E; subst date' pages. clear E.
    assert (Hl : l = filter (fun a => keqb (dayKey a) date)
                            (sortBy editedDesc annots)).
    { rewrite Hdays in Hd.
      apply (groupInto_bucket dayKey _ []) in Hd; [exact Hd | constructor]. }
    split; [|split].
    + assert (Hk : In date (map fst (clusterAnnotsByDays h annots))).
      { change date with (fst (date, l)). now apply in_map. }
      rewrite Hdays in Hk. apply groupInto_keys in Hk.
      destruct Hk as [[] | (a & _ & <-)]. apply startOfDay_midnight.
    + apply groupInto_NoDup. constructor.
    + intros page bucket Hb.
      apply (groupInto_bucket pageUrl l []) in Hb; [|constructor].
      cbn [Js.getOrEmpty Js.get app] in Hb. subst bucket. split.
      * apply StronglySorted_filter. rewrite Hl.
        apply StronglySorted_filter. apply sortBy_editedDesc_sorted.
      * intros a Ha. apply filter_In in Ha. destruct Ha as [Ha Hp].
        rewrite Hl in Ha. apply filter_In in Ha. destruct Ha as [_ Hday].
        apply keqb_eq in Hday. apply keqb_eq in Hp.
        split; [|exact Hp]. rewrite <- Hday. apply startOfDay_within.
Qed.

(** ** Listing by day *)

Lemma ceilDiv_succ (d w : Z) :
  (0 < w)%Z -> ceilDiv d w = ((d - 1) / w + 1)%Z.
Proof.
  intros Hw. unfold ceilDiv.
  replace (d + w - 1)%Z with (d - 1 + 1 * w)%Z by lia.
  apply Z.div_add. lia.
Qed.

Lemma scanRounds_at_bound (lim : nat) (hard : Z) :
  lim <> 0 -> scanRounds lim hard hard = 0.
Proof.
  intros Hl. unfold scanRounds, ceilDiv, msPerDay.
  replace (hard - hard)%Z with 0%Z by lia. cbn [Z.max Z.compare].
  rewrite Z.div_small; [reflexivity | lia].
Qed.

Lemma scanRounds_positive (lim : nat) (hard cursor : Z) :
  lim <> 0 -> (hard < cursor)%Z -> 0 < scanRounds lim hard cursor.
Proof.
  intros Hl Hc. unfold scanRounds, msPerDay.
  rewrite ceilDiv_succ by lia.
  assert (0 <= (Z.max 0 (cursor - hard) - 1) / (Z.of_nat lim * 86400000))%Z.
  { apply Z.div_pos; lia. }
  lia.
Qed.

Lemma scanRounds_step (lim : nat) (hard cursor : Z) :
  lim <> 0 ->
  (Z.of_nat lim * msPerDay <= cursor - hard)%Z ->
  S (scanRounds lim hard (cursor - Z.of_nat lim * msPerDay)) =
  scanRounds lim hard cursor.
Proof.
  intros Hl Hc. unfold scanRounds, msPerDay in *.
  set (w := (Z.of_nat lim * 86400000)%Z) in *.
  assert (Hw : (0 < w)%Z) by (unfold w; lia).
  rewrite !Z.max_r by lia.
  rewrite (ceilDiv_succ (cursor - hard) Hw).
  unfold ceilDiv.
  replace (cursor - w - hard + w - 1)%Z with (cursor - hard - 1)%Z by lia.
  assert (0 <= (cursor - hard - 1) / w)%Z by (apply Z.div_pos; lia).
  lia.
Qed.

Lemma diffDays_ge (lim : nat) (hard cursor : Z) :
  (hard < cursor)%Z ->
  (Z.of_nat lim <= diffDays cursor hard)%Z ->
  (Z.of_nat lim * msPerDay <= cursor - hard)%Z.
Proof.
  intros Hc Hd. unfold diffDays, msPerDay in *.
  rewrite Z.quot_div_nonneg in Hd by lia.
  pose proof (Z.mul_div_le (cursor - hard) 86400000 ltac:(lia)).
  nia.
Qed.

Lemma listAnnotsByDay_loop_scan (db : Store) (h : Host)
  (params : AnnotSearchParams) (hard : Z) (fuel : nat) :
  forall cursor results issued,
    scanRounds (limit params) hard cursor < fuel ->
    exists results' rounds,
      listAnnotsByDay_loop fuel db h params hard cursor results issued =
        Some (results', issued ++ rounds) /\
      length rounds <= scanRounds (limit params) hard cursor /\
      Forall (fun q => (hard <= lower q)%Z) rounds.
Proof.
  induction fuel as [|fuel IH]; intros cursor results issued Hfuel; [lia|].
  cbn [listAnnotsByDay_loop].
  destruct ((length results <? limit params) && (hard <? cursor)%Z) eqn:Econd.
  - apply andb_true_iff in Econd. destruct Econd as [Hsize Hcur].
    apply Nat.ltb_lt in Hsize. apply Z.ltb_lt in Hcur.
    assert (Hlim : limit params <> 0) by lia.
    destruct (diffDays cursor hard <? Z.of_nat (limit params))%Z eqn:Ediff.
    + edestruct (IH hard) as (results' & rounds & Hrun & Hlen & Hlow).
      { rewrite scanRounds_at_bound by assumption.
        pose proof (@scanRounds_positive _ hard cursor Hlim Hcur). lia. }
      rewrite Hrun. rewrite scanRounds_at_bound in Hlen by assumption.
      destruct rounds; [|simpl in Hlen; lia].
      eexists. exists [{| lower := hard; upper := cursor |}].
      rewrite app_nil_r. split; [reflexivity|]. split.
      * pose proof (@scanRounds_positive _ hard cursor Hlim Hcur). simpl. lia.
      * repeat constructor. simpl. lia.
    + apply Z.ltb_ge in Ediff.
      pose proof (@diffDays_ge (limit params) hard cursor Hcur Ediff) as Hspan.
      pose proof (@scanRounds_step (limit params) hard cursor Hlim Hspan) as Hstep.
      edestruct (IH (cursor - Z.of_nat (limit params) * msPerDay)%Z)
        as (results' & rounds & Hrun & Hlen & Hlow).
      { rewrite <- Hstep in Hfuel. apply PeanoNat.lt_S_n. exact Hfuel. }
      rewrite Hrun. eexists.
      exists ({| lower := (cursor - Z.of_nat (limit params) * msPerDay)%Z;
                 upper := cursor |} :: rounds).
      rewrite <- app_assoc. split; [reflexivity|]. split.
      * rewrite <- Hstep. simpl. lia.
      * constructor; [simpl; lia | exact Hlow].
  - exists results, []. rewrite app_nil_r.
    split; [reflexivity|]. split; [simpl; lia | constructor].
Qed.

Lemma calcHardLowerTimeBound_max (h : Host) (params : AnnotSearchParams) :
  calcHardLowerTimeBound h params =
  Z.max (annotsRelease h params) (installMoment h).
Proof.
  unfold calcHardLowerTimeBound.
  destruct (installMoment h <? annotsRelease h params)%Z eqn:E.
  - apply Z.ltb_lt in E. lia.
  - apply Z.ltb_ge in E. lia.
Qed.

(** ** Pagination of search results *)

Lemma slice_nonempty {A : Type} (s e : nat) (xs : list A) :
  Js.slice s e xs <> [] -> s < length xs.
Proof.
  intros Hne. destruct (Nat.lt_ge_cases s (length xs)) as [Hlt | Hge];
    [assumption|].
  exfalso. apply Hne. unfold Js.slice.
  rewrite skipn_all2 by assumption. apply firstn_nil.
Qed.

Lemma paginate_loop_returns (db : Store) (results : list string)
  (limit skip : nat) (fuel : nat) :
  forall internalSkip annotsByPage seenPages,
    length results - internalSkip < fuel ->
    exists r,
      paginate_loop fuel db results limit skip internalSkip
                    annotsByPage seenPages = Some r.
Proof.
  induction fuel as [|fuel IH]; intros internalSkip annotsByPage seenPages Hf;
    [lia|].
  cbn [paginate_loop].
  destruct (length annotsByPage <? limit) eqn:El; [|eexists; reflexivity].
  apply Nat.ltb_lt in El.
  destruct (Js.slice internalSkip (internalSkip + limit * 2) results)
    as [|r0 rs] eqn:Es; [eexists; reflexivity|].
  assert (Hs : internalSkip < length results).
  { apply (@slice_nonempty _ internalSkip (internalSkip + limit * 2)).
    rewrite Es. discriminate. }
  destruct (fold_left _ _ _) as [[annotsByPage' seenPages'] | e];
    [|eexists; reflexivity].
  apply IH. lia.
Qed.

(** [paginateAnnotsResults] always comes back, with a page map or with
    an exception. *)
Lemma paginateAnnotsResults_returns (db : Store) (results : list string)
  (params : AnnotSearchParams) :
  exists r, paginateAnnotsResults db results params = Some r.
Proof.
  unfold paginateAnnotsResults. apply paginate_loop_returns. lia.
Qed.

Lemma searchAnnots_returns (db : Store) (h : Host)
  (params : AnnotSearchParams) :
  exists r, searchAnnots db h params = Some r.
Proof.
  unfold searchAnnots. destruct (lookupTerms db h params).
  - apply paginateAnnotsResults_returns.
  - eexists. reflexivity.
Qed.

(** ** The model on the sample store *)

Example mapUrlsToAnnots_sample :
  mapUrlsToAnnots Sample.db ["Q#1"; "gone"; "P#1"; "Q#1"]%string =
  [Some Sample.a3; None; Some Sample.a1; Some Sample.a3].
Proof. reflexivity. Qed.

Example lookupTerms_sample :
  lookupTerms Sample.db Sample.host
    (Sample.query ["alpha"; "beta"]%string true true None 10 0) =
  Ok ["P#1"; "P#2"]%string.
Proof. reflexivity. Qed.

Example lookupTerms_highlights_only_sample :
  lookupTerms Sample.db Sample.host
    (Sample.query ["alpha"; "beta"]%string true false None 10 0) =
  Ok ["P#2"]%string.
Proof. reflexivity. Qed.

Example clusterAnnotsByPage_sample :
  clusterAnnotsByPage Sample.host [Sample.a1; Sample.a2; Sample.a3] =
  [(1546387200000%Z, [("Q"%string, [Sample.a3]); ("P"%string, [Sample.a2])]);
   (1546300800000%Z, [("P"%string, [Sample.a1])])].
Proof. reflexivity. Qed.

Example listAnnotsByDay_sample :
  listAnnotsByDay 5 Sample.db Sample.host
    (Sample.query [] true true None 1 0) =
  Some [(1546387200000%Z,
         [("Q"%string, [Sample.a3]); ("P"%string, [Sample.a2])])].
Proof. vm_compute. reflexivity. Qed.

Example listAnnotsByDay_second_day_sample :
  listAnnotsByDay 5 Sample.db Sample.host
    (Sample.query [] true true None 1 1) =
  Some [(1546300800000%Z, [("P"%string, [Sample.a1])])].
Proof. vm_compute. reflexivity. Qed.

Example filterResults_excluded_and_included_sample :
  filterResults Sample.db ["P#1"; "P#2"; "Q#1"]%string
    {| termsInc := []; includeHighlights := true; includeNotes := true;
       pUrl := None; startDate := None; endDate := None;
       bookmarksOnly := false;
       tagsInc := Some ["work"%string]; tagsExc := Some ["work"%string];
       collections := None; limit := 10; skip := 0 |} = [].
Proof. reflexivity. Qed.

(** ** Merging clustered results *)

Section MapFacts.
Context {K : Type} `{Key K}.

Lemma get_notin {V : Type} (m : list (K * V)) (k : K) :
  ~ In k (map fst m) -> Js.get m k = None.
Proof.
  induction m as [|[k' v'] m IH]; simpl; [reflexivity|].
  intros Hn. destruct (keqb k k') eqn:E.
  - apply keqb_eq in E. subst. tauto.
  - apply IH. tauto.
Qed.

Lemma get_Some_In {V : Type} (m : list (K * V)) (k : K) (v : V) :
  Js.get m k = Some v -> In (k, v) m.
Proof.
  induction m as [|[k' v'] m IH]; simpl; [discriminate|].
  destruct (keqb k k') eqn:E.
  - apply keqb_eq in E. subst. intros [= ->]. now left.
  - intros Hg. right. now apply IH.
Qed.

Lemma set_length {V : Type} (k : K) (v : V) (m : list (K * V)) :
  length (Js.set k v m) =
  if Js.has (map fst m) k then length m else S (length m).
Proof.
  rewrite <- (length_map fst (Js.set k v m)), set_keys_eq.
  destruct (Js.has (map fst m) k).
  - apply length_map.
  - rewrite length_app, length_map. simpl. lia.
Qed.

Lemma getOrEmpty_cons {V : Type} (k k' : K) (v : list V)
  (m : list (K * list V)) :
  Js.getOrEmpty ((k', v) :: m) k = if keqb k k' then v else Js.getOrEmpty m k.
Proof. unfold Js.getOrEmpty. cbn [Js.get]. now destruct (keqb k k'). Qed.

Lemma getOrEmpty_notin {V : Type} (k : K) (m : list (K * list V)) :
  ~ In k (map fst m) -> Js.getOrEmpty m k = [].
Proof. intros Hn. unfold Js.getOrEmpty. now rewrite get_notin. Qed.

(** Replacing the value under [k] by one that holds the old content and
    [extra] adds [extra] to the content of the map. *)
Lemma set_flat_perm {V B : Type} (f : V -> list B) (k : K) (new : V)
  (extra : list B) (m : list (K * V)) :
  Permutation (f new)
    (match Js.get m k with Some old => f old | None => [] end ++ extra) ->
  Permutation (concat (map (fun kv => f (snd kv)) (Js.set k new m)))
              (concat (map (fun kv => f (snd kv)) m) ++ extra).
Proof.
  induction m as [|[k' v'] m IH]; cbn [Js.get Js.set]; intros Hp.
  - cbn [map concat snd app] in *. now rewrite app_nil_r.
  - destruct (keqb k k') eqn:E; cbn [map concat snd].
    + rewrite Hp, <- !app_assoc. apply Permutation_app_head.
      apply Permutation_app_comm.
    + rewrite <- app_assoc. apply Permutation_app_head. now apply IH.
Qed.

End MapFacts.

Lemma mergePages_keys (pb pa : PageMap) :
  map fst (mergePages pa pb) =
  map fst pa ++ Js.uniqAcc (map fst pa) (map fst pb).
Proof.
  revert pa. induction pb as [|[page annotsB] pb IH]; intros pa.
  - cbn [mergePages fold_left map Js.uniqAcc]. now rewrite app_nil_r.
  - cbn [mergePages fold_left map fst Js.uniqAcc].
    fold (mergePages (Js.set page (Js.getOrEmpty pa page ++ annotsB) pa) pb).
    rewrite IH, set_keys_eq.
    destruct (Js.has (map fst pa) page); [reflexivity|].
    now rewrite <- app_assoc.
Qed.

Lemma mergePages_bucket (pb pa : PageMap) (p : string) :
  NoDup (map fst pb) ->
  Js.getOrEmpty (mergePages pa pb) p =
  Js.getOrEmpty pa p ++ Js.getOrEmpty pb p.
Proof.
  revert pa. induction pb as [|[page annotsB] pb IH]; intros pa Hnd.
  - cbn [mergePages fold_left]. rewrite (getOrEmpty_notin p []) by (intros []).
    now rewrite app_nil_r.
  - cbn [mergePages fold_left].
    fold (mergePages (Js.set page (Js.getOrEmpty pa page ++ annotsB) pa) pb).
    cbn [map fst] in Hnd. inversion Hnd as [|? ? Hpage Hpb]; subst.
    rewrite (IH _ Hpb), getOrEmpty_set, getOrEmpty_cons.
    destruct (keqb p page) eqn:E.
    + apply keqb_eq in E. subst p.
      rewrite (getOrEmpty_notin page pb Hpage). now rewrite app_nil_r.
    + reflexivity.
Qed.

Lemma mergePages_perm (pb pa : PageMap) :
  Permutation (flattenPages (mergePages pa pb))
              (flattenPages pa ++ flattenPages pb).
Proof.
  unfold flattenPages.
  revert pa. induction pb as [|[page annotsB] pb IH]; intros pa.
  - cbn [mergePages fold_left map concat]. now rewrite app_nil_r.
  - cbn [mergePages fold_left map concat snd].
    fold (mergePages (Js.set page (Js.getOrEmpty pa page ++ annotsB) pa) pb).
    rewrite IH, app_assoc. apply Permutation_app_tail.
    apply (set_flat_perm (fun l : list Annotation => l)).
    unfold Js.getOrEmpty. destruct (Js.get pa page); apply Permutation_refl.
Qed.

Lemma mergeResults_cons (a : DayMap) (date : Z) (pagesB : PageMap)
  (b : DayMap) :
  mergeResults a ((date, pagesB) :: b) =
  mergeResults (Js.set date (mergePages (pagesAt a date) pagesB) a) b.
Proof. reflexivity. Qed.

Lemma mergeResults_keys (b a : DayMap) :
  map fst (mergeResults a b) =
  map fst a ++ Js.uniqAcc (map fst a) (map fst b).
Proof.
  revert a. induction b as [|[date pagesB] b IH]; intros a.
  - cbn [mergeResults fold_left map Js.uniqAcc]. now rewrite app_nil_r.
  - rewrite mergeResults_cons, IH, set_keys_eq. cbn [map fst Js.uniqAcc].
    destruct (Js.has (map fst a) date); [reflexivity|].
    now rewrite <- app_assoc.
Qed.

Lemma flatten_cons (d : Z) (pm : PageMap) (b : DayMap) :
  flatten ((d, pm) :: b) = flattenPages pm ++ flatten b.
Proof. reflexivity. Qed.

Lemma mergeResults_perm (b a : DayMap) :
  Permutation (flatten (mergeResults a b)) (flatten a ++ flatten b).
Proof.
  revert a. induction b as [|[date pagesB] b IH]; intros a.
  - cbn [mergeResults fold_left]. unfold flatten at 3.
    cbn [map concat]. now rewrite app_nil_r.
  - rewrite mergeResults_cons, IH, flatten_cons.
    rewrite app_assoc. apply Permutation_app_tail.
    apply (set_flat_perm flattenPages).
    rewrite mergePages_perm. apply Permutation_app_tail.
    unfold pagesAt, flattenPages.
    destruct (Js.get a date); apply Permutation_refl.
Qed.

Lemma pagesAt_set (a : DayMap) (d date : Z) (pm : PageMap) :
  pagesAt (Js.set date pm a) d =
  if keqb d date then pm else pagesAt a d.
Proof.
  unfold pagesAt. rewrite get_set. now destruct (keqb d date).
Qed.

Lemma pagesAt_cons (b : DayMap) (d date : Z) (pm : PageMap) :
  pagesAt ((date, pm) :: b) d = if keqb d date then pm else pagesAt b d.
Proof. unfold pagesAt. cbn [Js.get]. now destruct (keqb d date). Qed.

Lemma pagesAt_notin (b : DayMap) (d : Z) :
  ~ In d (map fst b) -> pagesAt b d = [].
Proof. intros Hn. unfold pagesAt. now rewrite get_notin. Qed.

(** X6. When no day occurs twice in [b] and no page twice within a day
    of [b], the bucket of a day and page in [mergeResults a b] is the
    bucket [a] has there followed by the bucket [b] has there (either
    may be missing, that is, empty). *)
Theorem mergeResults_appends_buckets (b a : DayMap) (d : Z) (p : string) :
  keysOnce b ->
  bucketAt (mergeResults a b) d p = bucketAt a d p ++ bucketAt b d p.
Proof.
  revert a. induction b as [|[date pagesB] b IH]; intros a [Hdays Hpages].
  - cbn [mergeResults fold_left]. unfold bucketAt at 3.
    rewrite (pagesAt_notin [] d) by (intros []).
    rewrite (getOrEmpty_notin p []) by (intros []). now rewrite app_nil_r.
  - cbn [map fst] in Hdays. inversion Hdays as [|? ? Hdate Hb]; subst.
    rewrite mergeResults_cons, IH.
    + unfold bucketAt. rewrite pagesAt_set, pagesAt_cons.
      destruct (keqb d date) eqn:E.
      * apply keqb_eq in E. subst d.
        rewrite mergePages_bucket by (apply (Hpages date); now left).
        rewrite (pagesAt_notin b date Hdate).
        rewrite (getOrEmpty_notin p []) by (intros []).
        now rewrite app_nil_r.
      * reflexivity.
    + split; [assumption|]. intros d' pm Hin. apply (Hpages d'). now right.
Qed.

(** ** Pagination of search results, continued *)

Lemma In_firstn {A : Type} (n : nat) (l : list A) (x : A) :
  In x (firstn n l) -> In x l.
Proof.
  revert l. induction n as [|n IH]; intros [|y l]; simpl; try tauto.
  intros [-> | Hx]; [now left | right; now apply IH].
Qed.

Lemma In_skipn {A : Type} (n : nat) (l : list A) (x : A) :
  In x (skipn n l) -> In x l.
Proof.
  revert l. induction n as [|n IH]; intros [|y l]; simpl; try tauto.
  intros Hx. right. now apply IH.
Qed.

Lemma In_slice {A : Type} (s e : nat) (l : list A) (x : A) :
  In x (Js.slice s e l) -> In x l.
Proof. unfold Js.slice. intros Hx. eapply In_skipn, In_firstn, Hx. Qed.

Lemma mapUrlsToAnnots_map (db : Store) (urls : list string) :
  mapUrlsToAnnots db urls = map (lookupAnnot db) urls.
Proof.
  unfold mapUrlsToAnnots. apply map_ext_in. intros k Hk.
  rewrite get_fold_set. unfold lookupAnnot.
  rewrite <- filter_rev, find_filter.
  - destruct (find _ _); reflexivity.
  - intros a Ha. apply keqb_eq in Ha. apply has_In. now rewrite Ha.
Qed.

Lemma fold_visit_err (lim skip : nat) (l : list (option Annotation))
  (e : Error) :
  fold_left (paginateVisit lim skip) l (Err e) = Err e.
Proof. induction l as [|x l IH]; [reflexivity | exact IH]. Qed.

Lemma paginateVisit_some (lim skip : nat) (m : PageMap) (seen : list string)
  (a : Annotation) :
  exists m' seen',
    paginateVisit lim skip (Ok (m, seen)) (Some a) = Ok (m', seen') /\
    (m' = m \/
     (length m <> lim /\
      m' = Js.set (pageUrl a) (Js.getOrEmpty m (pageUrl a) ++ [a]) m)).
Proof.
  cbn [paginateVisit bind].
  destruct (negb (length m =? lim) && _) eqn:E.
  - eexists. eexists. split; [reflexivity|]. right. split; [|reflexivity].
    apply andb_true_iff in E. destruct E as [E _].
    apply negb_true_iff, Nat.eqb_neq in E. exact E.
  - eexists. eexists. split; [reflexivity|]. now left.
Qed.

Lemma pagesOk_set (db : Store) (results : list string) (lim : nat)
  (m : PageMap) (a : Annotation) :
  pagesOk db results lim m ->
  length m <> lim ->
  In a (annotations db) -> In (url a) results ->
  pagesOk db results lim
    (Js.set (pageUrl a) (Js.getOrEmpty m (pageUrl a) ++ [a]) m).
Proof.
  intros (Hlen & Hnd & Hb) Hne Ha Hk. split; [|split].
  - rewrite set_length. destruct (Js.has _ _); lia.
  - now apply set_NoDup.
  - intros p bucket a' Hin Ha'. apply set_In in Hin.
    destruct Hin as [E | Hin]; [|now apply (Hb p bucket)].
    inversion E; subst p bucket. clear E.
    apply in_app_or in Ha'. destruct Ha' as [Ha' | [<- | []]]; [|tauto].
    unfold Js.getOrEmpty in Ha'.
    destruct (Js.get m (pageUrl a)) as [prev|] eqn:Eg; [|destruct Ha'].
    apply get_Some_In in Eg. now apply (Hb (pageUrl a) prev).
Qed.

Lemma fold_visit_ok (db : Store) (results : list string) (lim skip : nat)
  (l : list (option Annotation)) :
  (forall a, In (Some a) l -> In a (annotations db) /\ In (url a) results) ->
  forall m seen m' seen',
    pagesOk db results lim m ->
    fold_left (paginateVisit lim skip) l (Ok (m, seen)) = Ok (m', seen') ->
    pagesOk db results lim m'.
Proof.
  induction l as [|x l IH]; intros Hl m seen m' seen' Hm Hf.
  - cbn [fold_left] in Hf. now inversion Hf; subst.
  - cbn [fold_left] in Hf. destruct x as [a|].
    + destruct (paginateVisit_some lim skip m seen a)
        as (m1 & seen1 & Hv & Hm1).
      rewrite Hv in Hf. apply IH in Hf; [exact Hf | |].
      * intros a' Ha'. apply Hl. now right.
      * destruct Hm1 as [-> | [Hne ->]]; [exact Hm|].
        destruct (Hl a (or_introl eq_refl)). now apply pagesOk_set.
    + cbn [paginateVisit bind] in Hf. rewrite fold_visit_err in Hf.
      discriminate.
Qed.

Lemma fold_visit_total (lim skip : nat) (l : list (option Annotation)) :
  (forall x, In x l -> x <> None) ->
  forall m seen,
    exists m' seen',
      fold_left (paginateVisit lim skip) l (Ok (m, seen)) = Ok (m', seen').
Proof.
  induction l as [|x l IH]; intros Hl m seen.
  - exists m, seen. reflexivity.
  - cbn [fold_left]. destruct x as [a|].
    + destruct (paginateVisit_some lim skip m seen a)
        as (m1 & seen1 & Hv & _).
      rewrite Hv. apply IH. intros x Hx. apply Hl. now right.
    + exfalso. now apply (Hl None (or_introl eq_refl)).
Qed.

Lemma fold_visit_hole (lim skip : nat) (l : list (option Annotation)) :
  In None l ->
  forall m seen,
    fold_left (paginateVisit lim skip) l (Ok (m, seen)) =
    Err PropertyOfUndefined.
Proof.
  induction l as [|x l IH]; intros Hin m seen; [destruct Hin|].
  cbn [fold_left]. destruct x as [a|].
  - destruct (paginateVisit_some lim skip m seen a)
      as (m1 & seen1 & Hv & _).
    rewrite Hv. apply IH. destruct Hin as [E | Hin]; [discriminate | assumption].
  - cbn [paginateVisit bind]. apply fold_visit_err.
Qed.

Lemma paginate_loop_ok (db : Store) (results : list string)
  (lim skip : nat) (fuel : nat) :
  forall internalSkip annotsByPage seenPages,
    length results - internalSkip < fuel ->
    pagesOk db results lim annotsByPage ->
    exists r,
      paginate_loop fuel db results lim skip internalSkip
                    annotsByPage seenPages = Some r /\
      (forall m, r = Ok m -> pagesOk db results lim m) /\
      ((forall k, In k results -> lookupAnnot db k <> None) ->
       exists m, r = Ok m).
Proof.
  induction fuel as [|fuel IH];
    intros internalSkip annotsByPage seenPages Hf Hok; [lia|].
  cbn [paginate_loop].
  destruct (length annotsByPage <? lim) eqn:El.
  2:{ eexists. split; [reflexivity|]. split.
      - intros m [= <-]. exact Hok.
      - intros _. eexists. reflexivity. }
  destruct (Js.slice internalSkip (internalSkip + lim * 2) results)
    as [|r0 rs] eqn:Es.
  { eexists. split; [reflexivity|]. split.
    - intros m [= <-]. exact Hok.
    - intros _. eexists. reflexivity. }
  assert (Hs : internalSkip < length results).
  { apply (@slice_nonempty _ internalSkip (internalSkip + lim * 2)).
    rewrite Es. discriminate. }
  assert (Hsub : forall k, In k (r0 :: rs) -> In k results).
  { intros k Hk. rewrite <- Es in Hk. eapply In_slice, Hk. }
  rewrite mapUrlsToAnnots_map.
  destruct (fold_left _ _ _) as [[annotsByPage' seenPages'] | e] eqn:Ef.
  - apply IH; [apply Nat.ltb_lt in El; lia|].
    eapply fold_visit_ok; [|exact Hok | exact Ef].
    intros a Ha. apply in_map_iff in Ha. destruct Ha as (k & Hk & Hin).
    apply lookupAnnot_record in Hk. destruct Hk as [Ha <-].
    split; [assumption | now apply Hsub].
  - eexists. split; [reflexivity|]. split; [discriminate|].
    intros Hres. exfalso.
    destruct (@fold_visit_total lim skip (map (lookupAnnot db) (r0 :: rs)))
      with (m := annotsByPage) (seen := seenPages) as (m' & s' & Hok').
    + intros x Hx. apply in_map_iff in Hx. destruct Hx as (k & <- & Hk).
      apply Hres. now apply Hsub.
    + rewrite Hok' in Ef. discriminate.
Qed.

Lemma pagesOk_nil (db : Store) (results : list string) (lim : nat) :
  pagesOk db results lim [].
Proof.
  split; [simpl; lia|]. split; [constructor|]. intros p bucket a [].
Qed.

(** X1. [paginateAnnotsResults] always comes back, and when it returns a
    page map the map has at most [limit] pages, no page twice, and every
    annotation in the bucket of a page is a record of the store that is
    on that page and whose key is one of the given keys. *)
Theorem paginateAnnotsResults_pages (db : Store) (results : list string)
  (params : AnnotSearchParams) :
  exists r,
    paginateAnnotsResults db results params = Some r /\
    forall m, r = Ok m ->
      length m <= limit params /\
      NoDup (map fst m) /\
      forall p bucket a,
        In (p, bucket) m -> In a bucket ->
        pageUrl a = p /\ In a (annotations db) /\ In (url a) results.
Proof.
  unfold paginateAnnotsResults.
  destruct (@paginate_loop_ok db results (limit params) (skip params)
              (S (length results)) 0 [] [])
    as (r & Hr & Hok & _); [lia | apply pagesOk_nil |].
  exists r. split; [exact Hr|]. intros m Hm. exact (Hok m Hm).
Qed.

(** X2. When [limit] is positive and one of the first [2 * limit] keys
    has no record in the store, [paginateAnnotsResults] throws: the hole
    [mapUrlsToAnnots] leaves for that key is read for its [pageUrl]. *)
Theorem paginateAnnotsResults_hole_throws (db : Store)
  (results : list string) (params : AnnotSearchParams) (k : string) :
  0 < limit params ->
  In k (firstn (limit params * 2) results) ->
  lookupAnnot db k = None ->
  paginateAnnotsResults db results params = Some (Err PropertyOfUndefined).
Proof.
  intros Hlim Hk Hnone. unfold paginateAnnotsResults.
  cbn [paginate_loop length].
  destruct (0 <? limit params) eqn:E; [|apply Nat.ltb_ge in E; lia].
  unfold Js.slice. cbn [skipn plus].
  replace (limit params * 2 - 0) with (limit params * 2) by lia.
  destruct (firstn (limit params * 2) results) as [|r0 rs] eqn:Es;
    [destruct Hk|].
  rewrite mapUrlsToAnnots_map, fold_visit_hole; [reflexivity|].
  apply in_map_iff. exists k. split; assumption.
Qed.

Lemma paginateAnnotsResults_hole_throws_witness :
  paginateAnnotsResults Sample.db ["P#1"; "gone"]%string
    (Sample.query [] true true None 10 0) = Some (Err PropertyOfUndefined).
Proof.
  apply (@paginateAnnotsResults_hole_throws Sample.db
           ["P#1"; "gone"]%string (Sample.query [] true true None 10 0)
           "gone"%string).
  - vm_compute. repeat constructor.
  - right. left. reflexivity.
  - reflexivity.
Defined.

Lemma filterResults_In (db : Store) (xs : list string)
  (params : AnnotSearchParams) (k : string) :
  In k (filterResults db xs params) <->
  In k xs /\ passesFacets db params k = true.
Proof.
  rewrite filterResults_shape, filter_In. unfold passesFacets.
  destruct (bookmarksOnly params).
  - unfold filterByBookmarks.
    rewrite filter_In, andb_true_iff, !has_In. tauto.
  - cbn [andb]. tauto.
Qed.

Lemma lookupTerms_key_terms (db : Store) (h : Host)
  (params : AnnotSearchParams) (keys : list string) (k t : string) :
  lookupTerms db h params = Ok keys ->
  In k keys -> In t (termsInc params) ->
  In k (termKeys db h params t).
Proof.
  rewrite lookupTerms_unfold.
  set (g := termKeys db h params).
  set (results := fold_left (fun m t => Js.set t (g t) m) (termsInc params) []).
  intros Hl Hk Ht.
  assert (Hin : In t (map fst results)).
  { unfold results. apply termResults_keys. now left. }
  apply in_map_iff in Hin. destruct Hin as ([t' v] & E & Hkv).
  cbn [fst] in E. subst t'.
  assert (Hv : v = g t).
  { apply (termResults_values g (termsInc params) []
             (fun kv F => match F with end) (t, v) Hkv). }
  assert (Hvin : In v (map snd results)).
  { change v with (snd (t, v)). now apply in_map. }
  destruct (map snd results) as [|x r]; [discriminate|].
  cbn [reduce1] in Hl. inversion Hl; subst keys. clear Hl.
  apply intersect_In in Hk. destruct Hk as [Hx Hr].
  rewrite <- Hv. destruct Hvin as [<- | Hvin]; [assumption | now apply Hr].
Qed.

Lemma lookupTerms_returns (db : Store) (h : Host)
  (params : AnnotSearchParams) :
  termsInc params <> [] -> exists keys, lookupTerms db h params = Ok keys.
Proof.
  intros Hne. rewrite lookupTerms_unfold.
  destruct (map snd _) as [|x r] eqn:E.
  - exfalso. destruct (termsInc params) as [|t ts]; [congruence|].
    assert (Hin : In t (map fst
              (fold_left (fun m t0 => Js.set t0 (termKeys db h params t0) m)
                         (t :: ts) []))).
    { apply termResults_keys. left. now left. }
    destruct (fold_left _ _ _); [destruct Hin | discriminate].
  - eexists. reflexivity.
Qed.

(** X3. With a non-empty [termsInc] and a store whose annotation keys
    are unique, [searchAnnots] does not throw: it returns a page map of
    at most [limit] pages, no page twice, in which every annotation is a
    record of the store filed under its own page, lies in the date
    window, passes every triggered facet filter and holds each term in
    some enabled field. *)
Theorem searchAnnots_sound (db : Store) (h : Host)
  (params : AnnotSearchParams) :
  termsInc params <> [] ->
  NoDup (map url (annotations db)) ->
  exists m,
    searchAnnots db h params = Some (Ok m) /\
    length m <= limit params /\
    NoDup (map fst m) /\
    forall p bucket a,
      In (p, bucket) m -> In a bucket ->
      pageUrl a = p /\ In a (annotations db) /\
      inWindow h params a = true /\
      passesFacets db params (url a) = true /\
      forall t, In t (termsInc params) -> fieldsHold params a t.
Proof.
  intros Hne Hpk. unfold searchAnnots.
  destruct (lookupTerms_returns db h params Hne) as (keys & Hkeys).
  rewrite Hkeys.
  assert (Hterm : forall k, In k keys -> forall t, In t (termsInc params) ->
            exists a, In a (annotations db) /\ url a = k /\
                      inWindow h params a = true /\ fieldsHold params a t).
  { intros k Hk t Ht. apply termKeys_In.
    eapply lookupTerms_key_terms; eassumption. }
  unfold paginateAnnotsResults.
  destruct (@paginate_loop_ok db (filterResults db keys params)
              (limit params) (skip params)
              (S (length (filterResults db keys params))) 0 [] [])
    as (r & Hr & Hok & Hres); [lia | apply pagesOk_nil |].
  destruct Hres as (m & ->).
  { intros k Hk. apply filterResults_In in Hk. destruct Hk as [Hk _].
    destruct (termsInc params) as [|t0 ts] eqn:ET; [congruence|].
    destruct (Hterm k Hk t0 (or_introl eq_refl)) as (a & Ha & Hu & _).
    intros Hnone. rewrite lookupAnnot_hole in Hnone.
    now apply (Hnone a Ha). }
  exists m. split; [exact Hr|].
  destruct (Hok m eq_refl) as (Hlen & Hnd & Hb).
  split; [exact Hlen|]. split; [exact Hnd|].
  intros p bucket a Hin Ha.
  destruct (Hb p bucket a Hin Ha) as (Hp & Hstore & Hk).
  apply filterResults_In in Hk. destruct Hk as [Hk Hfacets].
  split; [exact Hp|]. split; [exact Hstore|].
  assert (Hat : forall t, In t (termsInc params) ->
            inWindow h params a = true /\ fieldsHold params a t).
  { intros t Ht. destruct (Hterm (url a) Hk t Ht) as (a' & Ha' & Hu & Hw & Hf).
    assert (a' = a) as ->; [|now split].
    apply (NoDup_map_inj url (annotations db)); assumption. }
  split; [|split; [exact Hfacets|]].
  - destruct (termsInc params) as [|t0 ts] eqn:ET; [congruence|].
    apply (Hat t0). now left.
  - intros t Ht. now apply Hat.
Qed.

Lemma searchAnnots_sound_witness :
  exists m,
    searchAnnots Sample.db Sample.host
      (Sample.query ["alpha"; "beta"]%string true true None 10 0) =
      Some (Ok m) /\
    length m <= limit (Sample.query ["alpha"; "beta"]%string true true None 10 0) /\
    NoDup (map fst m) /\
    forall p bucket a,
      In (p, bucket) m -> In a bucket ->
      pageUrl a = p /\ In a (annotations Sample.db) /\
      inWindow Sample.host
        (Sample.query ["alpha"; "beta"]%string true true None 10 0) a = true /\
      passesFacets Sample.db
        (Sample.query ["alpha"; "beta"]%string true true None 10 0) (url a) = true /\
      forall t,
        In t (termsInc (Sample.query ["alpha"; "beta"]%string true true None 10 0)) ->
        fieldsHold (Sample.query ["alpha"; "beta"]%string true true None 10 0) a t.
Proof.
  apply searchAnnots_sound.
  - discriminate.
  - vm_compute. repeat constructor; simpl; intuition discriminate.
Defined.

(** ** Merging clustered results, continued *)

(** X4. Merging loses and repeats nothing: the annotations of
    [mergeResults a b] are those of [a] together with those of [b], each
    as often as the two hold it. *)
Theorem mergeResults_keeps_annotations (a b : DayMap) :
  Permutation (flatten (mergeResults a b)) (flatten a ++ flatten b) /\
  length (flatten (mergeResults a b)) =
    length (flatten a) + length (flatten b) /\
  (forall x, In x (flatten (mergeResults a b)) <->
             In x (flatten a) \/ In x (flatten b)).
Proof.
  pose proof (mergeResults_perm b a) as Hp. split; [exact Hp|]. split.
  - rewrite (Permutation_length Hp). apply length_app.
  - intros x. rewrite <- in_app_iff. split; intros Hx.
    + exact (Permutation_in x Hp Hx).
    + exact (Permutation_in x (Permutation_sym Hp) Hx).
Qed.

(** X5. The days of [a] keep their places in [mergeResults a b] and the
    days only [b] has follow them, in the order of their first
    occurrence in [b]; if no day occurs twice in [a], none does in the
    merged map. *)
Theorem mergeResults_day_order (a b : DayMap) :
  map fst (mergeResults a b) =
    map fst a ++ Js.uniqAcc (map fst a) (map fst b) /\
  (NoDup (map fst a) -> NoDup (map fst (mergeResults a b))).
Proof.
  split; [apply mergeResults_keys|].
  intros Ha. rewrite mergeResults_keys.
  apply NoDup_app; [assumption | apply uniqAcc_NoDup |].
  intros d Hd Hu. apply uniqAcc_In in Hu. tauto.
Qed.

Lemma mergeResults_appends_buckets_witness :
  bucketAt
    (mergeResults [(0%Z, [("P"%string, [Sample.a1])])]
                  [(0%Z, [("P"%string, [Sample.a2])])])
    0%Z "P"%string =
  bucketAt [(0%Z, [("P"%string, [Sample.a1])])] 0%Z "P"%string ++
  bucketAt [(0%Z, [("P"%string, [Sample.a2])])] 0%Z "P"%string.
Proof.
  apply mergeResults_appends_buckets. split.
  - repeat constructor. intros [].
  - intros d pm [E | []]. inversion E; subst.
    repeat constructor. intros [].
Defined.

(** ** Facet filters, continued *)

(** X7. The collection filter keeps a candidate key exactly when the
    store has a list entry for that key in a list whose name is among
    [collections]; kept keys stay in candidate order. *)
Theorem filterByCollections_members (db : Store) (urls : list string)
  (params : AnnotSearchParams) :
  (forall k,
     In k (filterByCollections db urls params) <->
     In k urls /\
     exists id name,
       In (id, k) (pageListEntries db) /\
       In (id, name) (customLists db) /\
       In name (elems (collections params))) /\
  filterByCollections db urls params =
    filter (inCollections db params) urls.
Proof.
  split; [|apply filterByCollections_filter].
  intros k. rewrite filterByCollections_filter, filter_In.
  apply and_iff_compat_l. unfold inCollections.
  rewrite existsb_exists. split.
  - intros ([id u] & Hin & Hc). cbn [fst snd] in Hc.
    apply andb_true_iff in Hc. destruct Hc as [Hu Hl].
    apply keqb_eq in Hu. subst u.
    apply existsb_exists in Hl. destruct Hl as ([id' name] & Hlin & Hc).
    cbn [fst snd] in Hc. apply andb_true_iff in Hc. destruct Hc as [Hid Hn].
    apply keqb_eq in Hid. subst id'. apply has_In in Hn.
    exists id, name. auto.
  - intros (id & name & He & Hl & Hn). exists (id, k).
    split; [assumption|]. cbn [fst snd]. rewrite keqb_refl. cbn [andb].
    apply existsb_exists. exists (id, name). split; [assumption|].
    cbn [fst snd]. rewrite keqb_refl. cbn [andb]. now apply has_In.
Qed.

Lemma subseq_filter {A : Type} (f : A -> bool) (l : list A) :
  subseq (filter f l) l.
Proof.
  induction l as [|x l IH]; cbn [filter]; [constructor|].
  destruct (f x); now constructor.
Qed.

(** X8. The bookmark filter returns the bookmarked keys that are among
    the candidates, in the order of the bookmarks table and not of the
    candidates: its result is the bookmarks table with the keys that are
    no candidates left out.  A candidate given twice comes back once
    when the table holds each key once. *)
Theorem filterByBookmarks_members (db : Store) (urls : list string) :
  (forall k, In k (filterByBookmarks db urls) <->
             In k urls /\ In k (bookmarks db)) /\
  subseq (filterByBookmarks db urls) (bookmarks db) /\
  (NoDup (bookmarks db) -> NoDup (filterByBookmarks db urls)) /\
  filterByBookmarks db (urls ++ urls) = filterByBookmarks db urls.
Proof.
  unfold filterByBookmarks. split; [|split; [|split]].
  - intros k. rewrite filter_In, has_In. tauto.
  - apply subseq_filter.
  - intros Hnd. now apply NoDup_filter.
  - apply filter_ext. intros b. apply eq_true_iff_eq.
    rewrite !has_In, in_app_iff. tauto.
Qed.

(** The candidates come back in table order. *)
Example filterByBookmarks_table_order_sample :
  filterByBookmarks
    {| annotations := []; bookmarks := ["a"; "b"; "c"]%string; tags := [];
       customLists := []; pageListEntries := [] |}
    ["c"; "a"; "c"]%string = ["a"; "c"]%string.
Proof. reflexivity. Qed.

(** X9. [filterResults] never adds a key: a key is in its output exactly
    when it is a candidate that passes every triggered filter.  Without
    [bookmarksOnly] the candidates keep their order and multiplicity;
    with it the output has no repeated key when the bookmarks table has
    none. *)
Theorem filterResults_keys (db : Store) (xs : list string)
  (params : AnnotSearchParams) :
  (forall k, In k (filterResults db xs params) <->
             In k xs /\ passesFacets db params k = true) /\
  (bookmarksOnly params = false ->
   filterResults db xs params = filter (passesFacets db params) xs) /\
  (bookmarksOnly params = true -> NoDup (bookmarks db) ->
   NoDup (filterResults db xs params)).
Proof.
  split; [intros k; apply filterResults_In|]. split.
  - intros Eb. rewrite filterResults_shape, Eb. apply filter_ext.
    intros k. unfold passesFacets. now rewrite Eb.
  - intros Eb Hnd. rewrite filterResults_shape, Eb.
    apply NoDup_filter. unfold filterByBookmarks. now apply NoDup_filter.
Qed.

(** ** Matching an annotation against the terms *)

Lemma diff_empty (xs ys : list string) :
  (length (diff xs ys) =? 0) = true <-> forall t, In t xs -> In t ys.
Proof.
  unfold diff. induction xs as [|x xs IH]; cbn [filter].
  - simpl. split; [intros _ t [] | reflexivity].
  - destruct (Js.has ys x) eqn:E; cbn [negb].
    + apply has_In in E. rewrite IH. split.
      * intros Hall t [<- | Ht]; auto.
      * intros Hall t Ht. apply Hall. now right.
    + apply has_false in E. cbn [length Nat.eqb]. split; [discriminate|].
      intros Hall. exfalso. apply E, Hall. now left.
Qed.

(** X10. [termsMatch] answers [true] exactly when one enabled field of
    the annotation holds all the terms by itself, and gives no answer
    ([undefined]) exactly when no field is enabled.  An annotation it
    accepts therefore meets the condition of [lookupTerms] (each term in
    some enabled field). *)
Theorem termsMatch_single_field (params : AnnotSearchParams)
  (a : Annotation) :
  (termsMatch params a = None <->
     includeHighlights params = false /\ includeNotes params = false) /\
  (termsMatch params a = Some true <->
     exists f, In f (enabledFields params) /\
               forall t, In t (termsInc params) -> In t (fieldTerms f a)) /\
  (termsMatch params a = Some true ->
     forall t, In t (termsInc params) -> fieldsHold params a t).
Proof.
  assert (Hmain : termsMatch params a = Some true <->
     exists f, In f (enabledFields params) /\
               forall t, In t (termsInc params) -> In t (fieldTerms f a)).
  { unfold termsMatch, enabledFields.
    destruct (includeHighlights params), (includeNotes params);
      cbn [andb negb app].
    - split.
      + intros [= E]. apply orb_true_iff in E. destruct E as [E | E].
        * exists CommentTerms. split; [right; now left|].
          now apply diff_empty.
        * exists BodyTerms. split; [now left|]. now apply diff_empty.
      + intros (f & [<- | [<- | []]] & Hall); f_equal; apply orb_true_iff.
        * right. now apply diff_empty.
        * left. now apply diff_empty.
    - split.
      + intros [= E]. exists BodyTerms. split; [now left|].
        now apply diff_empty.
      + intros (f & [<- | []] & Hall). f_equal. now apply diff_empty.
    - split.
      + intros [= E]. exists CommentTerms. split; [now left|].
        now apply diff_empty.
      + intros (f & [<- | []] & Hall). f_equal. now apply diff_empty.
    - split; [discriminate|]. intros (f & [] & _). }
  split; [|split; [exact Hmain|]].
  - unfold termsMatch.
    destruct (includeHighlights params), (includeNotes params);
      cbn [andb negb]; split; try discriminate; try tauto;
      intros [? ?]; discriminate.
  - intros Hm t Ht. apply Hmain in Hm. destruct Hm as (f & Hf & Hall).
    exists f. auto.
Qed.

(** [lookupTerms] is the more generous of the two: [P#1] holds [alpha]
    in its highlight and [beta] in its note. *)
Example termsMatch_split_terms_sample :
  termsMatch (Sample.query ["alpha"; "beta"]%string true true None 10 0)
             Sample.a1 = Some false /\
  lookupTerms Sample.db Sample.host
    (Sample.query ["alpha"; "beta"]%string true true None 10 0) =
  Ok ["P#1"; "P#2"]%string.
Proof. split; reflexivity. Qed.

(** ** Listing the annotations of one page, continued *)

Lemma listWithUrl_In (db : Store) (h : Host) (params : AnnotSearchParams)
  (coll : list Annotation) :
  listWithUrl db h params = Ok coll ->
  forall a,
    In a coll <->
    In a (annotations db) /\ pUrl params = Some (pageUrl a) /\
    inWindow h params a = true.
Proof.
  unfold listWithUrl, inWindow.
  destruct (pUrl params) as [[|c u]|]; try discriminate.
  rewrite <- negb_orb.
  destruct (truthy (startDate params) || truthy (endDate params));
    cbn [negb]; intros [= <-] a.
  - rewrite !filter_In. split.
    + intros [[Ha Hp] Hw]. apply String.eqb_eq in Hp. rewrite Hp. tauto.
    + intros (Ha & [= Hp] & Hw). rewrite <- Hp.
      split; [split; [assumption | apply String.eqb_refl] | assumption].
  - rewrite filter_In. split.
    + intros [Ha Hp]. apply String.eqb_eq in Hp. rewrite Hp. tauto.
    + intros (Ha & [= Hp] & _). rewrite <- Hp.
      split; [assumption | apply String.eqb_refl].
Qed.

(** X11. Without a page url (absent or empty) [listAnnotsByPage] throws
    the error of [listWithUrl] in its first round, whatever else the
    query holds. *)
Theorem listAnnotsByPage_no_url_throws (db : Store) (h : Host)
  (params : AnnotSearchParams) (innerLimitMultiplier fuel : nat) :
  pUrl params = None \/ pUrl params = Some EmptyString ->
  fuel <> 0 ->
  listAnnotsByPage fuel db h params innerLimitMultiplier =
  Some (Err UrlMissing).
Proof.
  intros Hu Hf. destruct fuel as [|fuel]; [congruence|].
  unfold listAnnotsByPage. cbn [listAnnotsByPage_loop].
  unfold listWithUrl. destruct Hu as [-> | ->]; reflexivity.
Qed.

Lemma listAnnotsByPage_no_url_throws_witness :
  listAnnotsByPage 1 Sample.db Sample.host
    (Sample.query [] true true None 10 0) DEF_INNER_LIMIT_MULTI =
  Some (Err UrlMissing).
Proof.
  apply listAnnotsByPage_no_url_throws; [now left | discriminate].
Defined.

(** X12. When the page has fewer than [limit * innerLimitMultiplier]
    annotations in the date window and the annotation keys of the store
    are unique, [listAnnotsByPage] returns no hole: every entry is a
    record of the store that is on the requested page, lies in the date
    window and passes every triggered facet filter. *)
Theorem listAnnotsByPage_records (db : Store) (h : Host)
  (params : AnnotSearchParams) (innerLimitMultiplier : nat)
  (coll : list Annotation) (fuel : nat) :
  listWithUrl db h params = Ok coll ->
  length coll < limit params * innerLimitMultiplier ->
  fuel <> 0 ->
  NoDup (map url (annotations db)) ->
  exists out,
    listAnnotsByPage fuel db h params innerLimitMultiplier = Some (Ok out) /\
    forall entry, In entry out ->
      exists a, entry = Some a /\ In a (annotations db) /\
                pUrl params = Some (pageUrl a) /\
                inWindow h params a = true /\
                passesFacets db params (url a) = true.
Proof.
  intros Hcoll Hshort Hfuel Hpk.
  destruct fuel as [|fuel]; [congruence|].
  unfold listAnnotsByPage.
  rewrite (listAnnotsByPage_loop_short_batch db h params Hcoll Hshort).
  cbn [app]. eexists. split; [reflexivity|].
  intros entry Hentry. rewrite mapUrlsToAnnots_map in Hentry.
  apply in_map_iff in Hentry. destruct Hentry as (k & <- & Hk).
  assert (Hk' : In k (filterResults db (map url coll) params)).
  { destruct (limit params <? _); [eapply In_slice, Hk | exact Hk]. }
  apply filterResults_In in Hk'. destruct Hk' as [Hin Hfacets].
  apply in_map_iff in Hin. destruct Hin as (a & <- & Ha).
  apply (listWithUrl_In db h params Hcoll) in Ha.
  destruct Ha as (Hstore & Hpage & Hw).
  destruct (lookupAnnot db (url a)) as [a'|] eqn:El.
  - apply lookupAnnot_record in El. destruct El as [Hstore' Hu].
    assert (a' = a) as ->
      by (apply (NoDup_map_inj url (annotations db)); assumption).
    exists a. auto.
  - rewrite lookupAnnot_hole in El. now destruct (El a Hstore).
Qed.

Lemma listAnnotsByPage_records_witness :
  exists out,
    listAnnotsByPage 1 Sample.db Sample.host
      (Sample.query [] true true (Some "P"%string) 2 1)
      DEF_INNER_LIMIT_MULTI = Some (Ok out) /\
    forall entry, In entry out ->
      exists a, entry = Some a /\ In a (annotations Sample.db) /\
        pUrl (Sample.query [] true true (Some "P"%string) 2 1) =
          Some (pageUrl a) /\
        inWindow Sample.host
          (Sample.query [] true true (Some "P"%string) 2 1) a = true /\
        passesFacets Sample.db
          (Sample.query [] true true (Some "P"%string) 2 1) (url a) = true.
Proof.
  apply (@listAnnotsByPage_records Sample.db Sample.host
           (Sample.query [] true true (Some "P"%string) 2 1)
           DEF_INNER_LIMIT_MULTI [Sample.a1; Sample.a2] 1).
  - reflexivity.
  - vm_compute. repeat constructor.
  - discriminate.
  - vm_compute. repeat constructor; simpl; intuition discriminate.
Defined.

(** ** Clustering by day and page, continued *)

Lemma groupInto_keys_eq {K A : Type} `{Key K} (key : A -> K) (xs : list A)
  (m : list (K * list A)) :
  map fst (groupInto key xs m) =
  map fst m ++ Js.uniqAcc (map fst m) (map key xs).
Proof.
  revert m. induction xs as [|a xs IH]; intros m.
  - cbn [groupInto fold_left map Js.uniqAcc]. now rewrite app_nil_r.
  - cbn [groupInto fold_left map Js.uniqAcc].
    fold (groupInto key xs
            (Js.set (key a) (Js.getOrEmpty m (key a) ++ [a]) m)).
    rewrite IH, set_keys_eq.
    destruct (Js.has (map fst m) (key a)); [reflexivity|].
    now rewrite <- app_assoc.
Qed.

Lemma startOfDay_mono (h : Host) (t1 t2 : Z) :
  (t1 <= t2)%Z -> (startOfDay h t1 <= startOfDay h t2)%Z.
Proof.
  intros Ht. unfold startOfDay, msPerDay.
  pose proof (Z.div_mod (t1 + utcOffset h) 86400000 ltac:(lia)) as D1.
  pose proof (Z.div_mod (t2 + utcOffset h) 86400000 ltac:(lia)) as D2.
  assert ((t1 + utcOffset h) / 86400000 <= (t2 + utcOffset h) / 86400000)%Z
    by (apply Z.div_le_mono; lia).
  lia.
Qed.

Lemma uniqAcc_descending (l seen : list Z) :
  StronglySorted (fun a b => (b <= a)%Z) l ->
  (forall s x, In s seen -> In x l -> (x <= s)%Z) ->
  descending (Js.uniqAcc seen l).
Proof.
  unfold descending. revert seen.
  induction l as [|x l IH]; intros seen Hs Hseen; cbn [Js.uniqAcc].
  - constructor.
  - apply StronglySorted_inv in Hs. destruct Hs as [Hs Hx].
    rewrite Forall_forall in Hx.
    destruct (Js.has seen x).
    + apply IH; [assumption|]. intros s y Hsin Hy. apply Hseen; [assumption|].
      now right.
    + constructor.
      * apply IH; [assumption|]. intros s y Hsin Hy.
        apply in_app_or in Hsin. destruct Hsin as [Hsin | [<- | []]].
        -- apply Hseen; [assumption | now right].
        -- now apply Hx.
      * apply Forall_forall. intros y Hy. apply uniqAcc_In in Hy.
        destruct Hy as [Hy Hn]. specialize (Hx y Hy).
        assert (y <> x) by (intros ->; apply Hn, in_or_app; right; now left).
        lia.
Qed.

Lemma StronglySorted_map {A B : Type} (R : A -> A -> Prop)
  (R' : B -> B -> Prop) (f : A -> B) (l : list A) :
  (forall a b, R a b -> R' (f a) (f b)) ->
  StronglySorted R l -> StronglySorted R' (map f l).
Proof.
  intros Hf. induction 1 as [|x l Hs IH Hall]; cbn [map]; constructor.
  - exact IH.
  - apply Forall_forall. intros y Hy. apply in_map_iff in Hy.
    destruct Hy as (a & <- & Ha). rewrite Forall_forall in Hall.
    apply Hf. now apply Hall.
Qed.

(** X13. The days of a clustering come most recent first: the day keys
    of [clusterAnnotsByDays], and so of [clusterAnnotsByPage], are
    strictly descending. *)
Theorem clusterAnnotsByPage_days_descending (h : Host)
  (annots : list Annotation) :
  descending (map fst (clusterAnnotsByDays h annots)) /\
  descending (map fst (clusterAnnotsByPage h annots)).
Proof.
  assert (Hd : descending (map fst (clusterAnnotsByDays h annots))).
  { rewrite clusterAnnotsByDays_groupInto, groupInto_keys_eq.
    cbn [map app]. apply uniqAcc_descending.
    - apply StronglySorted_map
        with (R := fun a b : Annotation => (lastEdited b <= lastEdited a)%Z).
      + intros a b. apply startOfDay_mono.
      + apply sortBy_editedDesc_sorted.
    - intros s x []. }
  split; [exact Hd|].
  rewrite clusterAnnotsByPage_map, map_map. cbn [fst]. exact Hd.
Qed.

(** ** Listing by day, continued *)

Lemma listAnnotsByDay_loop_inv (db : Store) (h : Host)
  (params : AnnotSearchParams) (hard c0 : Z) (I : DayMap -> Prop) :
  (forall results lo hi,
     (hi <= c0)%Z -> I results ->
     I (mergeResults results
          (clusterAnnotsByPage h (windowAnnots db params lo hi)))) ->
  forall fuel cursor results issued results' issued',
    (cursor <= c0)%Z -> I results ->
    listAnnotsByDay_loop fuel db h params hard cursor results issued =
      Some (results', issued') ->
    I results'.
Proof.
  intros Hstep. induction fuel as [|fuel IH];
    intros cursor results issued results' issued' Hc Hi Hrun;
    [discriminate|].
  cbn [listAnnotsByDay_loop] in Hrun.
  destruct ((length results <? limit params) && (hard <? cursor)%Z) eqn:Econd.
  - apply andb_true_iff in Econd. destruct Econd as [_ Hcur].
    apply Z.ltb_lt in Hcur.
    set (cursor' :=
           if (diffDays cursor hard <? Z.of_nat (limit params))%Z
           then hard
           else (cursor - Z.of_nat (limit params) * msPerDay)%Z) in Hrun.
    apply IH in Hrun; [exact Hrun | |].
    + subst cursor'.
      destruct (diffDays cursor hard <? Z.of_nat (limit params))%Z;
        unfold msPerDay; lia.
    + apply (Hstep results cursor' cursor Hc Hi).
  - now inversion Hrun; subst.
Qed.

Lemma windowAnnots_In (db : Store) (params : AnnotSearchParams) (lo hi : Z)
  (a : Annotation) :
  In a (windowAnnots db params lo hi) ->
  In a (annotations db) /\ (lastEdited a <= hi)%Z /\
  passesFacets db params (url a) = true.
Proof.
  unfold windowAnnots. cbv zeta. intros Ha. apply filter_In in Ha.
  destruct Ha as [Hq Hf]. apply has_In, filterResults_In in Hf.
  destruct Hf as [_ Hf].
  unfold queryAnnotsByDay in Hq. apply in_rev in Hq.
  apply (Permutation_in _ (sortBy_perm editedAsc _)) in Hq.
  apply filter_In in Hq. destruct Hq as [Hstore Hw].
  apply andb_true_iff in Hw. destruct Hw as [_ Hhi].
  apply Z.leb_le in Hhi. auto.
Qed.

Lemma flatten_cluster_perm (h : Host) (l : list Annotation) :
  Permutation (flatten (clusterAnnotsByPage h l)) l.
Proof.
  rewrite clusterAnnotsByPage_map. unfold flatten.
  rewrite map_map. cbn [snd].
  etransitivity.
  - apply concat_map_perm with (g := snd). intros d _.
    apply (groupInto_perm pageUrl (snd d) []).
  - rewrite clusterAnnotsByDays_groupInto.
    etransitivity;
      [apply (groupInto_perm (fun a => startOfDay h (lastEdited a)) _ [])|].
    cbn [map concat app]. apply sortBy_perm.
Qed.

Lemma flatten_In (m : DayMap) (a : Annotation) :
  In a (flatten m) <->
  exists d pm p bucket, In (d, pm) m /\ In (p, bucket) pm /\ In a bucket.
Proof.
  unfold flatten. rewrite in_concat. split.
  - intros (l & Hl & Ha). apply in_map_iff in Hl.
    destruct Hl as ([d pm] & <- & Hd). cbn [snd] in Ha.
    apply in_concat in Ha. destruct Ha as (bucket & Hb & Ha).
    apply in_map_iff in Hb. destruct Hb as ([p bucket'] & E & Hp).
    cbn [snd] in E. subst bucket'. exists d, pm, p, bucket. auto.
  - intros (d & pm & p & bucket & Hd & Hp & Ha).
    exists (concat (map snd pm)). split.
    + apply in_map_iff. exists (d, pm). auto.
    + apply in_concat. exists bucket. split; [|assumption].
      apply in_map_iff. exists (p, bucket). auto.
Qed.

Lemma cluster_keysOnce (h : Host) (l : list Annotation) :
  keysOnce (clusterAnnotsByPage h l).
Proof.
  rewrite clusterAnnotsByPage_map. split.
  - rewrite map_map. cbn [fst]. rewrite clusterAnnotsByDays_groupInto.
    apply groupInto_NoDup. constructor.
  - intros d pm Hin. apply in_map_iff in Hin.
    destruct Hin as (x & E & _). inversion E; subst.
    apply groupInto_NoDup. constructor.
Qed.

Lemma cluster_wellBucketed (h : Host) (l : list Annotation) :
  wellBucketed h (clusterAnnotsByPage h l).
Proof.
  rewrite clusterAnnotsByPage_map. intros d pm p bucket a Hd Hp Ha.
  apply in_map_iff in Hd. destruct Hd as ([d' day] & E & Hd).
  cbn [fst snd] in E. inversion E; subst d' pm. clear E.
  apply (groupInto_bucket pageUrl day []) in Hp; [|constructor].
  rewrite (getOrEmpty_notin p []) in Hp by (intros []).
  cbn [app] in Hp. subst bucket.
  apply filter_In in Ha. destruct Ha as [Ha Hpage].
  rewrite clusterAnnotsByDays_groupInto in Hd.
  apply (groupInto_bucket _ _ []) in Hd; [|constructor].
  rewrite (getOrEmpty_notin d []) in Hd by (intros []).
  cbn [app] in Hd. subst day.
  apply filter_In in Ha. destruct Ha as [_ Hday].
  apply keqb_eq in Hday. apply keqb_eq in Hpage. rewrite <- Hday.
  split; [apply startOfDay_midnight|].
  split; [apply startOfDay_within | exact Hpage].
Qed.

Lemma pagesAt_In (a : DayMap) (d : Z) (p : string)
  (bucket : list Annotation) :
  In (p, bucket) (pagesAt a d) ->
  exists pm, In (d, pm) a /\ In (p, bucket) pm.
Proof.
  unfold pagesAt. destruct (Js.get a d) as [pm|] eqn:E; [|intros []].
  intros Hin. exists pm. split; [now apply get_Some_In | assumption].
Qed.

Lemma pagesAt_NoDup (a : DayMap) (d : Z) :
  keysOnce a -> NoDup (map fst (pagesAt a d)).
Proof.
  intros [_ Hp]. unfold pagesAt.
  destruct (Js.get a d) as [pm|] eqn:E; [|constructor].
  apply (Hp d). now apply get_Some_In.
Qed.

Lemma mergePages_rel (R : string -> Annotation -> Prop) (pb pa : PageMap) :
  (forall p bucket x, In (p, bucket) pa -> In x bucket -> R p x) ->
  (forall p bucket x, In (p, bucket) pb -> In x bucket -> R p x) ->
  forall p bucket x,
    In (p, bucket) (mergePages pa pb) -> In x bucket -> R p x.
Proof.
  revert pa. induction pb as [|[page annotsB] pb IH]; intros pa Ha Hb.
  - exact Ha.
  - cbn [mergePages fold_left].
    fold (mergePages (Js.set page (Js.getOrEmpty pa page ++ annotsB) pa) pb).
    apply IH.
    + intros p bucket x Hin Hx. apply set_In in Hin.
      destruct Hin as [E | Hin]; [|now apply (Ha p bucket)].
      inversion E; subst p bucket. clear E.
      apply in_app_or in Hx. destruct Hx as [Hx | Hx].
      * unfold Js.getOrEmpty in Hx.
        destruct (Js.get pa page) as [prev|] eqn:Eg; [|destruct Hx].
        apply get_Some_In in Eg. now apply (Ha page prev).
      * apply (Hb page annotsB); [now left | assumption].
    + intros p bucket x Hin. apply (Hb p bucket). now right.
Qed.

Lemma mergeResults_keysOnce (b a : DayMap) :
  keysOnce a -> keysOnce (mergeResults a b).
Proof.
  revert a. induction b as [|[date pagesB] b IH]; intros a Ha; [exact Ha|].
  rewrite mergeResults_cons. apply IH. split.
  - apply set_NoDup. apply Ha.
  - intros d pm Hin. apply set_In in Hin.
    destruct Hin as [E | Hin]; [|now apply (proj2 Ha d)].
    inversion E; subst d pm. rewrite mergePages_keys.
    apply NoDup_app; [now apply pagesAt_NoDup | apply uniqAcc_NoDup |].
    intros p Hp Hu. apply uniqAcc_In in Hu. tauto.
Qed.

Lemma mergeResults_wellBucketed (h : Host) (b a : DayMap) :
  wellBucketed h a -> wellBucketed h b -> wellBucketed h (mergeResults a b).
Proof.
  revert a. induction b as [|[date pagesB] b IH]; intros a Ha Hb; [exact Ha|].
  rewrite mergeResults_cons. apply IH.
  - intros d pm p bucket x Hd Hp Hx. apply set_In in Hd.
    destruct Hd as [E | Hd]; [|now apply (Ha d pm p bucket)].
    inversion E; subst d pm. clear E.
    revert p bucket x Hp Hx.
    apply (mergePages_rel
             (fun p x =>
                ((date + utcOffset h) mod msPerDay = 0)%Z /\
                (date <= lastEdited x < date + msPerDay)%Z /\
                pageUrl x = p)).
    + intros p bucket x Hin Hx. apply pagesAt_In in Hin.
      destruct Hin as (pm & Hd & Hp). now apply (Ha date pm p bucket).
    + intros p bucket x Hin Hx.
      apply (Hb date pagesB p bucket); [now left | assumption..].
  - intros d pm p bucket x Hd. apply (Hb d pm p bucket). now right.
Qed.

Lemma NoDup_slice {A : Type} (s e : nat) (l : list A) :
  NoDup l -> NoDup (Js.slice s e l).
Proof.
  intros Hl. unfold Js.slice.
  assert (Hs : NoDup (skipn s l)).
  { rewrite <- (firstn_skipn s l) in Hl. now apply NoDup_app_remove_l in Hl. }
  rewrite <- (firstn_skipn (e - s) (skipn s l)) in Hs.
  now apply NoDup_app_remove_r in Hs.
Qed.

Lemma map_slice {A B : Type} (f : A -> B) (s e : nat) (l : list A) :
  map f (Js.slice s e l) = Js.slice s e (map f l).
Proof. unfold Js.slice. now rewrite skipn_map, firstn_map. Qed.

(** The result of the loop once [skip] and [limit] are applied. *)
Lemma listAnnotsByDay_cut (db : Store) (h : Host)
  (params : AnnotSearchParams) (fuel : nat) :
  scanBound h params < fuel ->
  exists scanned issued results,
    listAnnotsByDay_loop fuel db h params (calcHardLowerTimeBound h params)
      (startCursor h params) [] [] = Some (scanned, issued) /\
    listAnnotsByDay fuel db h params = Some results /\
    length results <= limit params /\
    (forall x, In x results -> In x scanned) /\
    (NoDup (map fst scanned) -> NoDup (map fst results)).
Proof.
  intros Hfuel.
  destruct (listAnnotsByDay_loop_scan db h params
              (calcHardLowerTimeBound h params) (fuel := fuel)
              (startCursor h params) [] [] Hfuel)
    as (scanned & rounds & Hrun & _).
  cbn [app] in Hrun. exists scanned, rounds.
  unfold listAnnotsByDay, listAnnotsByDay_run. rewrite Hrun.
  cbn [option_map fst]. eexists. split; [reflexivity|].
  split; [reflexivity|].
  destruct (limit params <? length scanned) eqn:E.
  - split; [|split].
    + unfold Js.slice. rewrite length_firstn. lia.
    + intros x. apply In_slice.
    + intros Hnd. rewrite map_slice. now apply NoDup_slice.
  - apply Nat.ltb_ge in E. auto.
Qed.

(** X14. With enough fuel for the scan, [listAnnotsByDay] returns at
    most [limit] days, no day twice and no page twice within a day, and
    every annotation it returns sits in the bucket of the day of its
    last edit and of its own page, also after the results of several
    windows were merged. *)
Theorem listAnnotsByDay_clustered (db : Store) (h : Host)
  (params : AnnotSearchParams) (fuel : nat) :
  scanBound h params < fuel ->
  exists results,
    listAnnotsByDay fuel db h params = Some results /\
    length results <= limit params /\
    keysOnce results /\
    wellBucketed h results.
Proof.
  intros Hfuel.
  destruct (listAnnotsByDay_cut db h params Hfuel)
    as (scanned & issued & results & Hrun & Hres & Hlen & Hsub & Hnd).
  assert (Hinv : keysOnce scanned /\ wellBucketed h scanned).
  { refine (@listAnnotsByDay_loop_inv db h params
             (calcHardLowerTimeBound h params) (startCursor h params)
             (fun m => keysOnce m /\ wellBucketed h m)
             _ fuel (startCursor h params) [] [] scanned issued _ _ Hrun).
    - intros m lo hi _ [Hk Hw]. split.
      + now apply mergeResults_keysOnce.
      + apply mergeResults_wellBucketed;
          [assumption | apply cluster_wellBucketed].
    - lia.
    - split; [split; [constructor | intros d pm []]|].
      intros d pm p bucket a []. }
  destruct Hinv as [[Hdays Hpages] Hw].
  exists results. split; [exact Hres|]. split; [exact Hlen|]. split.
  - split; [now apply Hnd|].
    intros d pm Hin. apply (Hpages d). now apply Hsub.
  - intros d pm p bucket a Hd. apply (Hw d pm p bucket a). now apply Hsub.
Qed.

Lemma listAnnotsByDay_clustered_witness :
  exists results,
    listAnnotsByDay 5 Sample.db Sample.host
      (Sample.query [] true true None 10 0) = Some results /\
    length results <= limit (Sample.query [] true true None 10 0) /\
    keysOnce results /\
    wellBucketed Sample.host results.
Proof.
  apply listAnnotsByDay_clustered. vm_compute. repeat constructor.
Defined.

(** X15. With enough fuel for the scan, every annotation
    [listAnnotsByDay] returns is a record of the store, was last edited
    no later than the start cursor ([endDate], or the end of the current
    day), and has a key that passes every triggered facet filter. *)
Theorem listAnnotsByDay_members (db : Store) (h : Host)
  (params : AnnotSearchParams) (fuel : nat) :
  scanBound h params < fuel ->
  exists results,
    listAnnotsByDay fuel db h params = Some results /\
    forall a, In a (flatten results) ->
      In a (annotations db) /\
      (lastEdited a <= startCursor h params)%Z /\
      passesFacets db params (url a) = true.
Proof.
  intros Hfuel.
  destruct (listAnnotsByDay_cut db h params Hfuel)
    as (scanned & issued & results & Hrun & Hres & _ & Hsub & _).
  exists results. split; [exact Hres|].
  assert (Hinv : forall a, In a (flatten scanned) ->
            In a (annotations db) /\
            (lastEdited a <= startCursor h params)%Z /\
            passesFacets db params (url a) = true).
  { refine (@listAnnotsByDay_loop_inv db h params
             (calcHardLowerTimeBound h params) (startCursor h params)
             (fun m => forall a, In a (flatten m) ->
                In a (annotations db) /\
                (lastEdited a <= startCursor h params)%Z /\
                passesFacets db params (url a) = true)
             _ fuel (startCursor h params) [] [] scanned issued _ _ Hrun).
    - intros m lo hi Hhi Hm a Ha.
      apply (Permutation_in _ (mergeResults_perm _ m)) in Ha.
      apply in_app_or in Ha. destruct Ha as [Ha | Ha]; [now apply Hm|].
      apply (Permutation_in _ (flatten_cluster_perm h _)) in Ha.
      apply windowAnnots_In in Ha. destruct Ha as (Hs & Ht & Hf).
      split; [assumption|]. split; [lia | assumption].
    - lia.
    - intros a []. }
  intros a Ha. apply Hinv. apply flatten_In in Ha.
  destruct Ha as (d & pm & p & bucket & Hd & Hp & Hb).
  apply flatten_In. exists d, pm, p, bucket. auto.
Qed.

Lemma listAnnotsByDay_members_witness :
  exists results,
    listAnnotsByDay 5 Sample.db Sample.host
      (Sample.query [] true true None 10 0) = Some results /\
    forall a, In a (flatten results) ->
      In a (annotations Sample.db) /\
      (lastEdited a <=
         startCursor Sample.host (Sample.query [] true true None 10 0))%Z /\
      passesFacets Sample.db (Sample.query [] true true None 10 0) (url a) = true.
Proof.
  apply listAnnotsByDay_members. vm_compute. repeat constructor.
Defined.

(** X16. When [limit] is zero, or the start cursor is not after the
    hard lower bound (an [endDate] at or before the installation time,
    say), [listAnnotsByDay] issues no range query and returns an empty
    map. *)
Theorem listAnnotsByDay_no_scan (db : Store) (h : Host)
  (params : AnnotSearchParams) (fuel : nat) :
  limit params = 0 \/
  (startCursor h params <= calcHardLowerTimeBound h params)%Z ->
  fuel <> 0 ->
  listAnnotsByDay_run fuel db h params = Some ([], []).
Proof.
  intros Hedge Hfuel. destruct fuel as [|fuel]; [congruence|].
  unfold listAnnotsByDay_run. cbn [listAnnotsByDay_loop length].
  assert (E : (0 <? limit params) &&
              (calcHardLowerTimeBound h params <? startCursor h params)%Z
              = false).
  { apply andb_false_iff. destruct Hedge as [-> | Hc].
    - now left.
    - right. apply Z.ltb_ge. exact Hc. }
  rewrite E. cbn [length]. destruct (limit params <? 0) eqn:El;
    [apply Nat.ltb_lt in El; lia | reflexivity].
Qed.

Lemma listAnnotsByDay_no_scan_witness :
  listAnnotsByDay_run 1 Sample.db Sample.host
    (Sample.query [] true true None 0 0) = Some ([], []).
Proof.
  apply listAnnotsByDay_no_scan; [now left | discriminate].
Defined.

(** Every round fetches all the annotations up to its cursor again: as
    long as fewer than [limit] days were found, an annotation older than
    the cursor is appended to its bucket once more per round. *)
Example listAnnotsByDay_refetch_sample :
  let a := Sample.annot "P#9" "P" 1545696000000 [] [] in
  listAnnotsByDay 20
    {| annotations := [a]; bookmarks := []; tags := [];
       customLists := []; pageListEntries := [] |}
    Sample.host (Sample.query [] true true None 2 0) =
  Some [(1545696000000%Z, [("P"%string, [a; a; a; a; a])])].
Proof. vm_compute. reflexivity. Qed.

(** ** Merging clustered results: days only one side has *)

Lemma mergePages_fresh (pb pa : PageMap) :
  NoDup (map fst pb) ->
  (forall p, In p (map fst pb) -> ~ In p (map fst pa)) ->
  mergePages pa pb = pa ++ pb.
Proof.
  revert pa. induction pb as [|[page annotsB] pb IH]; intros pa Hnd Hdis.
  - cbn [mergePages fold_left]. now rewrite app_nil_r.
  - cbn [mergePages fold_left].
    fold (mergePages (Js.set page (Js.getOrEmpty pa page ++ annotsB) pa) pb).
    cbn [map fst] in Hnd. inversion Hnd as [|? ? Hpage Hpb]; subst.
    assert (Hfresh : ~ In page (map fst pa)) by (apply Hdis; now left).
    rewrite (getOrEmpty_notin page pa Hfresh). cbn [app].
    rewrite (set_fresh _ _ _ Hfresh), IH.
    + now rewrite <- app_assoc.
    + assumption.
    + intros p Hp Hin. rewrite map_app in Hin. apply in_app_or in Hin.
      destruct Hin as [Hin | [<- | []]].
      * apply (Hdis p); [now right | assumption].
      * contradiction.
Qed.

(** X17. When [b] has no day twice, no page twice within a day, and no
    day in common with [a], merging copies the days of [b] as they are
    behind those of [a]: [mergeResults a b = a ++ b]. *)
Theorem mergeResults_new_days_copied (b a : DayMap) :
  keysOnce b ->
  (forall d, In d (map fst b) -> ~ In d (map fst a)) ->
  mergeResults a b = a ++ b.
Proof.
  revert a. induction b as [|[date pagesB] b IH]; intros a [Hnd Hpages] Hdis.
  - cbn [mergeResults fold_left]. now rewrite app_nil_r.
  - rewrite mergeResults_cons.
    cbn [map fst] in Hnd. inversion Hnd as [|? ? Hdate Hb]; subst.
    assert (Hfresh : ~ In date (map fst a)) by (apply Hdis; now left).
    rewrite (pagesAt_notin a date Hfresh).
    rewrite mergePages_fresh;
      [|apply (Hpages date); now left | intros p _ []].
    cbn [app]. rewrite (set_fresh _ _ _ Hfresh), IH.
    + now rewrite <- app_assoc.
    + split; [assumption|]. intros d pm Hin. apply (Hpages d). now right.
    + intros d Hd Hin. rewrite map_app in Hin. apply in_app_or in Hin.
      destruct Hin as [Hin | [<- | []]].
      * apply (Hdis d); [now right | assumption].
      * contradiction.
Qed.

Lemma mergeResults_new_days_copied_witness :
  mergeResults [(86400000%Z, [("Q"%string, [Sample.a3])])]
               [(0%Z, [("P"%string, [Sample.a1])])] =
  [(86400000%Z, [("Q"%string, [Sample.a3])])] ++
  [(0%Z, [("P"%string, [Sample.a1])])].
Proof.
  apply mergeResults_new_days_copied.
  - split.
    + repeat constructor. intros [].
    + intros d pm [E | []]. inversion E; subst.
      repeat constructor. intros [].
  - intros d [<- | []] [E | []]. discriminate.
Defined.

(** ** Pagination of search results: [skip] counts pages *)

Lemma setAdd_NoDup (p : string) (seen : list string) :
  NoDup seen -> NoDup (setAdd p seen).
Proof.
  intros Hnd. unfold setAdd. destruct (Js.has seen p) eqn:E; [assumption|].
  apply has_false in E. apply NoDup_app; [assumption | |].
  - repeat constructor. intros [].
  - intros x Hx [<- | []]. contradiction.
Qed.

Lemma setAdd_In (p x : string) (seen : list string) :
  In x (setAdd p seen) -> x = p \/ In x seen.
Proof.
  unfold setAdd. destruct (Js.has seen p); [now right|].
  intros Hx. apply in_app_or in Hx. destruct Hx as [Hx | [<- | []]]; auto.
Qed.

Lemma fold_visit_skipped (pages : list string) (lim skip : nat)
  (l : list (option Annotation)) :
  length (Js.uniq pages) <= skip ->
  (forall a, In (Some a) l -> In (pageUrl a) pages) ->
  forall seen m' seen',
    NoDup seen -> incl seen pages ->
    fold_left (paginateVisit lim skip) l (Ok ([], seen)) = Ok (m', seen') ->
    m' = [] /\ NoDup seen' /\ incl seen' pages.
Proof.
  intros Hskip. induction l as [|x l IH]; intros Hl seen m' seen' Hnd Hincl Hf.
  - cbn [fold_left] in Hf. inversion Hf; subst. auto.
  - cbn [fold_left] in Hf. destruct x as [a|].
    + cbn [paginateVisit bind] in Hf.
      assert (Hnd' : NoDup (setAdd (pageUrl a) seen)) by now apply setAdd_NoDup.
      assert (Hincl' : incl (setAdd (pageUrl a) seen) pages).
      { intros x Hx. apply setAdd_In in Hx. destruct Hx as [-> | Hx].
        - apply Hl. now left.
        - now apply Hincl. }
      assert (Hlen : length (setAdd (pageUrl a) seen) <= skip).
      { etransitivity; [|exact Hskip].
        apply NoDup_incl_length; [assumption|].
        intros x Hx. apply uniq_In. now apply Hincl'. }
      assert (E : (skip <? length (setAdd (pageUrl a) seen)) = false)
        by (apply Nat.ltb_ge; exact Hlen).
      rewrite E, andb_false_r in Hf.
      apply IH in Hf; [exact Hf | | assumption..].
      intros a' Ha'. apply Hl. now right.
    + cbn [paginateVisit bind] in Hf. rewrite fold_visit_err in Hf.
      discriminate.
Qed.

Lemma resultPages_In (db : Store) (results : list string) (k : string)
  (a : Annotation) :
  In k results -> lookupAnnot db k = Some a ->
  In (pageUrl a) (resultPages db results).
Proof.
  intros Hk Ha. unfold resultPages. apply in_flat_map. exists k.
  split; [assumption|]. rewrite Ha. now left.
Qed.

Lemma paginate_loop_skipped (db : Store) (results : list string)
  (lim skip : nat) (fuel : nat) :
  length (Js.uniq (resultPages db results)) <= skip ->
  forall internalSkip seenPages m,
    NoDup seenPages -> incl seenPages (resultPages db results) ->
    paginate_loop fuel db results lim skip internalSkip [] seenPages =
      Some (Ok m) ->
    m = [].
Proof.
  intros Hskip. induction fuel as [|fuel IH];
    intros internalSkip seenPages m Hnd Hincl Hrun; [discriminate|].
  cbn [paginate_loop length] in Hrun.
  destruct (0 <? lim); [|now inversion Hrun].
  destruct (Js.slice internalSkip (internalSkip + lim * 2) results)
    as [|r0 rs] eqn:Es; [now inversion Hrun|].
  rewrite mapUrlsToAnnots_map in Hrun.
  destruct (fold_left _ _ _) as [[m' seen'] | e] eqn:Ef; [|discriminate].
  apply (@fold_visit_skipped (resultPages db results) lim skip) in Ef;
    [| assumption | | assumption..].
  - destruct Ef as (-> & Hnd' & Hincl'). now apply IH in Hrun.
  - intros a Ha. apply in_map_iff in Ha. destruct Ha as (k & Hk & Hin).
    apply (resultPages_In db results k); [|assumption].
    rewrite <- Es in Hin. eapply In_slice, Hin.
Qed.

(** X18. [skip] counts pages, not annotations: when the records the
    keys resolve to lie on no more than [skip] different pages,
    [paginateAnnotsResults] still comes back, and a page map it returns
    is empty. *)
Theorem paginateAnnotsResults_skip_all (db : Store) (results : list string)
  (params : AnnotSearchParams) :
  length (Js.uniq (resultPages db results)) <= skip params ->
  exists r,
    paginateAnnotsResults db results params = Some r /\
    forall m, r = Ok m -> m = [].
Proof.
  intros Hskip.
  destruct (paginateAnnotsResults_returns db results params) as (r & Hr).
  exists r. split; [exact Hr|]. intros m ->.
  unfold paginateAnnotsResults in Hr.
  eapply paginate_loop_skipped in Hr;
    [exact Hr | exact Hskip | constructor | intros x []].
Qed.

Lemma paginateAnnotsResults_skip_all_witness :
  exists r,
    paginateAnnotsResults Sample.db ["P#1"; "P#2"; "Q#1"]%string
      (Sample.query [] true true None 10 2) = Some r /\
    forall m, r = Ok m -> m = [].
Proof.
  apply paginateAnnotsResults_skip_all. vm_compute. repeat constructor.
Defined.

(** Once more than [skip] pages were seen, a page seen before that is no
    longer held back: with [skip = 1] page [P] is passed over at [P#1]
    and comes in with [P#2], after [Q]. *)
Example paginateAnnotsResults_skipped_page_returns_sample :
  paginateAnnotsResults Sample.db ["P#1"; "Q#1"; "P#2"]%string
    (Sample.query [] true true None 10 1) =
  Some (Ok [("Q"%string, [Sample.a3]); ("P"%string, [Sample.a2])]).
Proof. reflexivity. Qed.

(** ** Listing by day: the lower bound *)

Lemma queryAnnotsByDay_In (db : Store) (lo hi : Z) (a : Annotation) :
  In a (queryAnnotsByDay db lo hi) <->
  In a (annotations db) /\ (lastEdited a <= hi)%Z.
Proof.
  unfold queryAnnotsByDay. rewrite <- in_rev. split.
  - intros Ha. apply (Permutation_in _ (sortBy_perm editedAsc _)) in Ha.
    apply filter_In in Ha. destruct Ha as [Hs Hw].
    cbn [idbLeb andb] in Hw. apply Z.leb_le in Hw. auto.
  - intros [Hs Hhi].
    apply (Permutation_in _ (Permutation_sym (sortBy_perm editedAsc _))).
    apply filter_In. split; [assumption|].
    cbn [idbLeb andb]. now apply Z.leb_le.
Qed.

Lemma windowAnnots_complete (db : Store) (params : AnnotSearchParams)
  (lo hi : Z) (a : Annotation) :
  In a (annotations db) -> (lastEdited a <= hi)%Z ->
  passesFacets db params (url a) = true ->
  In a (windowAnnots db params lo hi).
Proof.
  intros Hs Hhi Hf. unfold windowAnnots. cbv zeta.
  assert (Hq : In a (queryAnnotsByDay db lo hi))
    by (apply queryAnnotsByDay_In; auto).
  apply filter_In. split; [exact Hq|].
  apply has_In, filterResults_In. split; [now apply in_map | exact Hf].
Qed.

Lemma listAnnotsByDay_loop_fetches (db : Store) (h : Host)
  (params : AnnotSearchParams) (hard cursor : Z) (a : Annotation)
  (fuel : nat) (issued : list RangeQuery) (scanned : DayMap)
  (issued' : list RangeQuery) :
  limit params <> 0 -> (hard < cursor)%Z ->
  In a (annotations db) -> (lastEdited a <= cursor)%Z ->
  passesFacets db params (url a) = true ->
  listAnnotsByDay_loop fuel db h params hard cursor [] issued =
    Some (scanned, issued') ->
  In a (flatten scanned).
Proof.
  intros Hlim Hcur Hs Hle Hf Hrun.
  destruct fuel as [|fuel]; [discriminate|].
  cbn [listAnnotsByDay_loop length] in Hrun.
  assert (E : (0 <? limit params) && (hard <? cursor)%Z = true).
  { apply andb_true_iff. split; [apply Nat.ltb_lt; lia | now apply Z.ltb_lt]. }
  rewrite E in Hrun.
  set (cursor' :=
         if (diffDays cursor hard <? Z.of_nat (limit params))%Z
         then hard
         else (cursor - Z.of_nat (limit params) * msPerDay)%Z) in Hrun.
  refine (@listAnnotsByDay_loop_inv db h params hard cursor'
            (fun m => In a (flatten m)) _ fuel cursor'
            (mergeResults [] (clusterAnnotsByPage h
                                (windowAnnots db params cursor' cursor)))
            _ scanned issued' _ _ Hrun).
  - intros m lo hi _ Hm.
    apply (Permutation_in _ (Permutation_sym (mergeResults_perm _ m))).
    apply in_or_app. now left.
  - apply Z.le_refl.
  - apply (Permutation_in _ (Permutation_sym (mergeResults_perm _ []))).
    apply in_or_app. right.
    apply (Permutation_in _ (Permutation_sym (flatten_cluster_perm h _))).
    now apply windowAnnots_complete.
Qed.

Lemma calcHardLowerTimeBound_given (h : Host) (params : AnnotSearchParams) :
  calcHardLowerTimeBound h params =
  Z.max (givenOr (startDate params) (floor2018 h))
        (match installTime h with Some t => t | None => now h end).
Proof.
  rewrite calcHardLowerTimeBound_max. f_equal.
  unfold annotsRelease, annotsReleaseFloor, givenOr, floor2018, truthy.
  destruct (startDate params) as [[ms | ms]|]; try reflexivity.
  now destruct (ms =? 0)%Z.
Qed.

(** C5, where the code departs from it.  The hard lower bound is the
    later of [startDate] (when given; the local midnight of 2018-06-01
    otherwise) and the installation time, but the range queries of
    [listAnnotsByDay] have no effective lower end: the lower end is
    passed as a number, and every number comes before the [Date] keys of
    the index.  Whenever the scan runs at all, every annotation of the
    store that was edited before the hard lower bound and passes the
    facet filters is fetched and clustered, and it is returned when no
    more than [limit] days were found. *)
Theorem listAnnotsByDay_fetches_below_bound (db : Store) (h : Host)
  (params : AnnotSearchParams) (fuel : nat) (a : Annotation) :
  limit params <> 0 ->
  (calcHardLowerTimeBound h params < startCursor h params)%Z ->
  In a (annotations db) ->
  (lastEdited a < calcHardLowerTimeBound h params)%Z ->
  passesFacets db params (url a) = true ->
  scanBound h params < fuel ->
  calcHardLowerTimeBound h params =
    Z.max (givenOr (startDate params) (floor2018 h))
          (match installTime h with Some t => t | None => now h end) /\
  exists scanned issued,
    listAnnotsByDay_run fuel db h params =
      Some (if limit params <? length scanned
            then Js.slice (skip params) (skip params + limit params) scanned
            else scanned, issued) /\
    In a (flatten scanned) /\
    (length scanned <= limit params ->
     listAnnotsByDay fuel db h params = Some scanned).
Proof.
  intros Hlim Hcur Hs Hold Hf Hfuel.
  split; [apply calcHardLowerTimeBound_given|].
  destruct (listAnnotsByDay_loop_scan db h params
              (calcHardLowerTimeBound h params) (fuel := fuel)
              (startCursor h params) [] [] Hfuel)
    as (scanned & rounds & Hrun & _).
  cbn [app] in Hrun. exists scanned, rounds.
  unfold listAnnotsByDay, listAnnotsByDay_run. rewrite Hrun.
  split; [reflexivity|]. split.
  - apply (@listAnnotsByDay_loop_fetches db h params
             (calcHardLowerTimeBound h params) (startCursor h params) a
             fuel [] scanned rounds Hlim Hcur Hs ltac:(lia) Hf Hrun).
  - intros Hlen. cbn [option_map fst].
    destruct (limit params <? length scanned) eqn:E; [|reflexivity].
    apply Nat.ltb_lt in E. lia.
Qed.

(** The store holds one annotation, edited on 2018-11-01; the host was
    installed on 2018-12-01, which is the hard lower bound. *)
Lemma listAnnotsByDay_fetches_below_bound_witness :
  (lastEdited Sample.old <
     calcHardLowerTimeBound Sample.host
       (Sample.query [] true true None 10 0))%Z /\
  calcHardLowerTimeBound Sample.host (Sample.query [] true true None 10 0) =
    Z.max (givenOr (startDate (Sample.query [] true true None 10 0))
                   (floor2018 Sample.host))
          (match installTime Sample.host with
           | Some t => t
           | None => now Sample.host
           end) /\
  exists scanned issued,
    listAnnotsByDay_run 5 Sample.dbOld Sample.host
      (Sample.query [] true true None 10 0) =
      Some (if limit (Sample.query [] true true None 10 0) <? length scanned
            then Js.slice (skip (Sample.query [] true true None 10 0))
                   (skip (Sample.query [] true true None 10 0) +
                    limit (Sample.query [] true true None 10 0)) scanned
            else scanned, issued) /\
    In Sample.old (flatten scanned) /\
    (length scanned <= limit (Sample.query [] true true None 10 0) ->
     listAnnotsByDay 5 Sample.dbOld Sample.host
       (Sample.query [] true true None 10 0) = Some scanned).
Proof.
  split; [reflexivity|].
  apply listAnnotsByDay_fetches_below_bound.
  - discriminate.
  - reflexivity.
  - now left.
  - reflexivity.
  - reflexivity.
  - vm_compute. repeat constructor.
Defined.

(** The failing input of C5, evaluated: the annotation from before the
    lower bound is returned, once per range query. *)
Example listAnnotsByDay_below_bound_sample :
  calcHardLowerTimeBound Sample.host (Sample.query [] true true None 10 0) =
    1543622400000%Z /\
  listAnnotsByDay_run 5 Sample.dbOld Sample.host
    (Sample.query [] true true None 10 0) =
  Some ([(1541030400000%Z,
          [("P"%string,
            [Sample.old; Sample.old; Sample.old; Sample.old])])],
        [{| lower := 1545695999999; upper := 1546559999999 |};
         {| lower := 1544831999999; upper := 1545695999999 |};
         {| lower := 1543967999999; upper := 1544831999999 |};
         {| lower := 1543622400000; upper := 1543967999999 |}]).
Proof. split; vm_compute; reflexivity. Qed.

(** X19. The scan of [listAnnotsByDay] ends.  Its hard lower bound is
    the later of [startDate] (a [Date], or a number other than zero; the
    local midnight of 2018-06-01 otherwise) and the stored installation
    time (the current time when none is stored); its start cursor is
    [endDate], given likewise, or the end of the current local day.
    With fuel for one more test than [scanBound] rounds (the span
    between the two in milliseconds over [limit] days, rounded up), the
    function returns after at most [scanBound] range queries, and the
    number it passes as the lower end of a query is never below the
    bound. *)
Theorem listAnnotsByDay_scan_terminates (db : Store) (h : Host)
  (params : AnnotSearchParams) (fuel : nat) :
  scanBound h params < fuel ->
  calcHardLowerTimeBound h params =
    Z.max (givenOr (startDate params) (floor2018 h))
          (match installTime h with Some t => t | None => now h end) /\
  startCursor h params = givenOr (endDate params) (endOfToday h) /\
  scanBound h params =
    Z.to_nat
      ((Z.max 0 (startCursor h params - calcHardLowerTimeBound h params) +
        Z.of_nat (limit params) * 86400000 - 1) /
       (Z.of_nat (limit params) * 86400000)) /\
  exists results issued,
    listAnnotsByDay_run fuel db h params = Some (results, issued) /\
    length issued <= scanBound h params /\
    Forall (fun q => (calcHardLowerTimeBound h params <= lower q)%Z) issued.
Proof.
  intros Hfuel. split; [|split; [|split]].
  - apply calcHardLowerTimeBound_given.
  - unfold startCursor, givenOr, endOfToday, endOfDay, startOfDay, msPerDay,
      truthy.
    destruct (endDate params) as [[ms | ms]|]; try reflexivity.
    now destruct (ms =? 0)%Z.
  - reflexivity.
  - destruct (listAnnotsByDay_loop_scan db h params
                (calcHardLowerTimeBound h params) (fuel := fuel)
                (startCursor h params) [] [] Hfuel)
      as (results & rounds & Hrun & Hlen & Hlow).
    cbn [app] in Hrun. unfold listAnnotsByDay_run. rewrite Hrun.
    eexists. exists rounds. repeat split; assumption.
Qed.

Lemma listAnnotsByDay_scan_terminates_witness :
  calcHardLowerTimeBound Sample.host (Sample.query [] true true None 10 0) =
    Z.max (givenOr (startDate (Sample.query [] true true None 10 0))
                   (floor2018 Sample.host))
          (match installTime Sample.host with
           | Some t => t
           | None => now Sample.host
           end) /\
  startCursor Sample.host (Sample.query [] true true None 10 0) =
    givenOr (endDate (Sample.query [] true true None 10 0))
            (endOfToday Sample.host) /\
  scanBound Sample.host (Sample.query [] true true None 10 0) =
    Z.to_nat
      ((Z.max 0
          (startCursor Sample.host (Sample.query [] true true None 10 0) -
           calcHardLowerTimeBound Sample.host
             (Sample.query [] true true None 10 0)) +
        Z.of_nat (limit (Sample.query [] true true None 10 0)) * 86400000 - 1) /
       (Z.of_nat (limit (Sample.query [] true true None 10 0)) * 86400000)) /\
  exists results issued,
    listAnnotsByDay_run 5 Sample.db Sample.host
      (Sample.query [] true true None 10 0) = Some (results, issued) /\
    length issued <= scanBound Sample.host (Sample.query [] true true None 10 0) /\
    Forall (fun q =>
              (calcHardLowerTimeBound Sample.host
                 (Sample.query [] true true None 10 0) <= lower q)%Z) issued.
Proof.
  apply listAnnotsByDay_scan_terminates. vm_compute. repeat constructor.
Defined.
